(** * XPMP2: 2-D aircraft labels ([src/2D.cpp])

    A shallow embedding of the label pass of XPMP2: the projection of an
    aircraft's 3-D position to window coordinates ([ConvertTo2d]), the
    per-frame pass that selects, places and draws the labels
    ([TwoDDrawLabels]) and the configuration call
    [XPMPSetAircraftLabelDist].

    - C++ [float] is IEEE 754 binary32, taken from the Standard Library's
      executable specification [SpecFloat] at precision 24 and maximal
      exponent 128 (round to nearest, ties to even). Every operation of
      the source rounds to binary32: no excess precision and no
      contraction into fused multiply-add.
    - C++ [int] is a 32-bit two's complement integer carried in [Z].
    - Calls into X-Plane and OpenGL are recorded in a trace of [HostCall]s;
      what X-Plane answers comes from a record [XPlane].
    - C++ exceptions are an explicit outcome of the accessors of [Aircraft]
      and of CSL models; [try]/[CATCH_AC] is [catch_ac]. The functions of
      X-Plane and OpenGL are C functions and do not throw. *)

From Stdlib Require Import ZArith List Bool String Ascii Lia.
From Stdlib Require Import Floats.SpecFloat.
Import ListNotations.
Local Open Scope Z_scope.

(* ================================================================== *)
(** ** binary32 arithmetic *)
(* ================================================================== *)

Definition float : Type := spec_float.

Definition prec32 : Z := 24.
Definition emax32 : Z := 128.

Definition f32_add : float -> float -> float := SFadd prec32 emax32.
Definition f32_mul : float -> float -> float := SFmul prec32 emax32.
Definition f32_div : float -> float -> float := SFdiv prec32 emax32.

(** [a < b] and [a <= b] on floats; both are false when an operand is NaN. *)
Definition f32_lt : float -> float -> bool := SFltb.
Definition f32_le : float -> float -> bool := SFleb.

(** Conversion [int -> float] (and of integer literals). *)
Definition f32_of_int (z : Z) : float := binary_normalize prec32 emax32 z 0 false.

(** A [float] variable of the program always holds a binary32 datum. *)
Definition is_binary32 (x : float) : bool := valid_binary prec32 emax32 x.

Definition is_nan (x : float) : bool :=
  match x with S754_nan => true | _ => false end.

Declare Scope f32_scope.
Delimit Scope f32_scope with f32.
Infix "|+|" := f32_add (at level 50, left associativity) : f32_scope.
Infix "|*|" := f32_mul (at level 40, left associativity) : f32_scope.
Infix "|/|" := f32_div (at level 40, left associativity) : f32_scope.
Local Open Scope f32_scope.

(** The literals of the source. *)
Definition f_0_0 : float := S754_zero false.                    (* 0.0f  *)
Definition f_0_5 : float := S754_finite false 8388608 (-24).    (* 0.5f  *)
Definition f_0_6 : float := S754_finite false 10066330 (-24).   (* 0.6f  *)
Definition f_1_0 : float := S754_finite false 8388608 (-23).    (* 1.0f  *)
Definition f_m1_0 : float := S754_finite true 8388608 (-23).    (* -1.0f *)
Definition f_6_0 : float := S754_finite false 12582912 (-21).   (* 6.0f  *)
Definition f_10_0 : float := S754_finite false 10485760 (-20).  (* 10.0f *)
Definition f_11_0 : float := S754_finite false 11534336 (-20).  (* 11.0f *)

(** [std::min(a, b)] is [(b < a) ? b : a], [std::max(a, b)] is
    [(a < b) ? b : a]. *)
Definition std_min (a b : float) : float := if f32_lt b a then b else a.
Definition std_max (a b : float) : float := if f32_lt a b then b else a.

(* ================================================================== *)
(** ** C++ [int] and the conversions between [float] and integers *)
(* ================================================================== *)

Definition INT_MIN : Z := - 2 ^ 31.
Definition INT_MAX : Z := 2 ^ 31 - 1.

Definition in_int_range (z : Z) : bool := (INT_MIN <=? z) && (z <=? INT_MAX).

(** Two's complement reduction to 32 bits. Signed overflow is undefined in
    C++; the model takes the value the supported targets produce, and the
    theorems about [int] arithmetic assume the absence of overflow. *)
Definition wrap_int (z : Z) : Z := (z + 2 ^ 31) mod 2 ^ 32 - 2 ^ 31.

Definition int_add (a b : Z) : Z := wrap_int (a + b).
Definition int_sub (a b : Z) : Z := wrap_int (a - b).
(** [/] on [int] truncates towards zero. *)
Definition int_div (a b : Z) : Z := wrap_int (Z.quot a b).

(** What the language and the C library leave to the implementation:
    the width of [long], the value [lround] returns on a domain error (NaN,
    an infinity, or a result that does not fit [long]) and the value a
    conversion [float -> int] yields outside the range of [int]. *)
Class CRuntime : Type := {
  long_bits : Z;
  lround_invalid : Z;
  float_to_int_invalid : Z
}.

(** Linux on x86-64: [long] has 64 bits, and the conversion instructions
    deliver the most negative integer for an invalid operand. *)
Definition linux_x86_64 : CRuntime :=
  {| long_bits := 64;
     lround_invalid := - 2 ^ 63;
     float_to_int_invalid := - 2 ^ 31 |}.

(** Nearest integer, halfway cases away from zero. *)
Definition nearest_away (v : float) : option Z :=
  match v with
  | S754_zero _ => Some 0
  | S754_finite s m e =>
      let mag := match e with
                 | Zneg p => (Zpos m + 2 ^ (Zpos p - 1)) / 2 ^ Zpos p
                 | _ => Zpos m * 2 ^ e
                 end in
      Some (if s then - mag else mag)
  | _ => None
  end.

(** Integer part (rounding towards zero). *)
Definition truncate (v : float) : option Z :=
  match v with
  | S754_zero _ => Some 0
  | S754_finite s m e =>
      let mag := match e with
                 | Zneg p => Zpos m / 2 ^ Zpos p
                 | _ => Zpos m * 2 ^ e
                 end in
      Some (if s then - mag else mag)
  | _ => None
  end.

Section Conversions.
Context {rt : CRuntime}.

(** [std::lround(float)], of type [long]. *)
Definition lround (v : float) : Z :=
  match nearest_away v with
  | Some r =>
      if (- 2 ^ (long_bits - 1) <=? r) && (r <? 2 ^ (long_bits - 1))
      then r else lround_invalid
  | None => lround_invalid
  end.

(** The cast [(int)] of a [long]: modular. *)
Definition int_of_long (r : Z) : Z := wrap_int r.

(** The implicit conversion of a [float] to [int]. *)
Definition int_of_float (v : float) : Z :=
  match truncate v with
  | Some r => if in_int_range r then r else wrap_int float_to_int_invalid
  | None => wrap_int float_to_int_invalid
  end.

End Conversions.

(* ================================================================== *)
(** ** 2-D projection calculations *)
(* ================================================================== *)

(** [float a[n]]: a list, read by index. *)
Definition elem (a : list float) (i : nat) : float := nth i a S754_nan.
Notation "a .[ i ]" := (elem a i) (at level 1, left associativity, format "a .[ i ]").

(** The statics of the module that one frame refreshes. *)
Record FrameState : Type := {
  gMatrixWrld : list float;   (* float[16] *)
  gMatrixProj : list float;   (* float[16] *)
  gScreenW : float;
  gScreenH : float;
  gFOV : float
}.

(** 4x4 matrix transform of an XYZW coordinate. *)
Definition mult_matrix_vec (m v : list float) : list float :=
  [ v.[0] |*| m.[0] |+| v.[1] |*| m.[4] |+| v.[2] |*| m.[8] |+| v.[3] |*| m.[12];
    v.[0] |*| m.[1] |+| v.[1] |*| m.[5] |+| v.[2] |*| m.[9] |+| v.[3] |*| m.[13];
    v.[0] |*| m.[2] |+| v.[1] |*| m.[6] |+| v.[2] |*| m.[10] |+| v.[3] |*| m.[14];
    v.[0] |*| m.[3] |+| v.[1] |*| m.[7] |+| v.[2] |*| m.[11] |+| v.[3] |*| m.[15] ]%nat.

(** [afNdc] of [ConvertTo2d] after the three [*=]: the normalised device
    coordinates in positions 0 to 2, [1/w] in position 3. *)
Definition ndc_coords (fs : FrameState) (x y z : float) : list float :=
  let afPos := [x; y; z; f_1_0] in
  let afEye := mult_matrix_vec (gMatrixWrld fs) afPos in
  let afNdc := mult_matrix_vec (gMatrixProj fs) afEye in
  let invW := f_1_0 |/| afNdc.[3] in
  [ afNdc.[0] |*| invW; afNdc.[1] |*| invW; afNdc.[2] |*| invW; invW ].

(** Result of [ConvertTo2d]: the two output parameters and the returned
    flag. *)
Record Projection : Type := {
  out_x : Z;
  out_y : Z;
  visible : bool
}.

Section Projector.
Context {rt : CRuntime}.

(** [modern] is [glob.UsingModernGraphicsDriver()]. In the second branch
    the source compares with the [double] literal [1.0]: the [float] is
    promoted, which changes neither its value nor the comparison. *)
Definition ConvertTo2d (modern : bool) (fs : FrameState) (x y z : float) : Projection :=
  let afNdc := ndc_coords fs x y z in
  {| out_x := int_of_long (lround (gScreenW fs |*| (afNdc.[0] |*| f_0_5 |+| f_0_5)));
     out_y := int_of_long (lround (gScreenH fs |*| (afNdc.[1] |*| f_0_5 |+| f_0_5)));
     visible :=
       if modern
       then f32_le f_0_0 afNdc.[2] && f32_le afNdc.[2] f_1_0
       else f32_le f_m1_0 afNdc.[2] && f32_le afNdc.[2] f_1_0 |}.

End Projector.

(* ================================================================== *)
(** ** X-Plane, the aircraft and the global configuration *)
(* ================================================================== *)

(** An [XPLMDataRef] handle: the name of the dataref it was found for,
    [None] for [nullptr]. *)
Definition XPLMDataRef : Type := option string.

(** What X-Plane answers during one frame. *)
Record XPlane : Type := {
  xp_has_dataref : string -> bool;      (* does XPLMFindDataRef find it *)
  xp_datavf : string -> list float;     (* content of a float-array dataref *)
  xp_datai : string -> Z;               (* value of an int dataref *)
  xp_dataf : string -> float;           (* value of a float dataref *)
  xp_camera_zoom : float;               (* XPLMReadCameraPosition: zoom *)
  xp_measure : string -> float          (* XPLMMeasureString, proportional font *)
}.

Definition RGBA : Type := (float * float * float * float)%type.

(** The calls the module makes into X-Plane and OpenGL, with their
    arguments, and the log line of [CATCH_AC]. *)
Inductive HostCall : Type :=
| XPLMGetDatavf (dr : XPLMDataRef) (offset max : Z)
| XPLMGetDatai (dr : XPLMDataRef)
| XPLMGetDataf (dr : XPLMDataRef)
| XPLMReadCameraPosition
| XPLMMeasureString (s : string) (numChars : nat)
| XPLMSetGraphicsState (fog texUnits lighting alphaTesting alphaBlending depthTesting depthWriting : Z)
| glColor4f (r g b a : float)
| glBegin_GL_QUADS
| glVertex2f (x y : float)
| glEnd
| XPLMDrawString (color : RGBA) (x y : Z) (s : string)
| XPLMRegisterDrawCallback
| XPLMUnregisterDrawCallback
| LOG_MSG (msg : string)
| LogAcException (id : Z) (what : string).

(** A C++ call either returns or throws. *)
Inductive outcome (A : Type) : Type :=
| Returns (a : A)
| Throws (what : string).
Arguments Returns {A} a.
Arguments Throws {A} what.

Inductive SwitchCfg : Type := SWITCH_CFG_OFF | SWITCH_CFG_AUTO | SWITCH_CFG_ON.

Definition SwitchCfg_eqb (a b : SwitchCfg) : bool :=
  match a, b with
  | SWITCH_CFG_OFF, SWITCH_CFG_OFF => true
  | SWITCH_CFG_AUTO, SWITCH_CFG_AUTO => true
  | SWITCH_CFG_ON, SWITCH_CFG_ON => true
  | _, _ => false
  end.

(** The Doc8643 record of a CSL model; [wtc] is the wake-turbulence
    category. *)
Record Doc8643 : Type := { wtc : string }.

(** [s[0]]; the terminating NUL when [s] is empty. *)
Definition char0 (s : string) : ascii :=
  match s with
  | EmptyString => zero
  | String c _ => c
  end.

Record CSLModel : Type := { GetDoc8643 : outcome Doc8643 }.

(** What the label pass reads of an aircraft. [GetModel] returning
    [Returns None] is the null pointer. *)
Record Aircraft : Type := {
  IsRendered : outcome bool;
  ShallDrawLabel : outcome bool;
  GetCameraDist : outcome float;
  GetModel : outcome (option CSLModel);
  drawInfo_x : float;
  drawInfo_y : float;
  drawInfo_z : float;
  label : string;
  subLabel : string;
  colLabel : RGBA;
  colBackground : RGBA
}.

(** The fields of [glob] the module uses. [mapAc] is a [std::map] keyed
    by plane id; the list is its content in iteration order. *)
Record GlobVars : Type := {
  bDrawLabels : bool;
  eLabelOverride : SwitchCfg;
  maxLabelDist : float;
  bLabelCutOffAtVisibility : bool;
  UsingModernGraphicsDriver : bool;
  mapAc : list (Z * Aircraft)
}.

(** The dataref handles of the module, set by [TwoDInit]. *)
Record DataRefs : Type := {
  drMatrixWrld : XPLMDataRef;
  drMatrixProj : XPLMDataRef;
  drScreenWidth : XPLMDataRef;
  drScreenHeight : XPLMDataRef;
  drVisibility : XPLMDataRef;
  drFieldOfView : XPLMDataRef
}.

(** Modelled from the spec: the constant [M_per_NM] is declared in a
    header outside this file; one nautical mile is 1852 m. *)
Definition M_per_NM : float := S754_finite false 15171584 (-13).

(* ================================================================== *)
(** ** Computations that call the host and may throw *)
(* ================================================================== *)

(** The calls made so far, and how the computation ended. *)
Definition M (A : Type) : Type := (list HostCall * outcome A)%type.

Definition ret {A} (a : A) : M A := ([], Returns a).

Definition bind {A B} (c : M A) (k : A -> M B) : M B :=
  match c with
  | (t, Returns a) => let (t', r) := k a in (t ++ t', r)
  | (t, Throws w) => (t, Throws w)
  end.

(** A call into the host. *)
Definition call (h : HostCall) : M unit := ([h], Returns tt).

(** A C++ call that returns or throws, and makes no host call. *)
Definition eval {A} (o : outcome A) : M A := ([], o).

Declare Scope m_scope.
Delimit Scope m_scope with m.
Notation "x <- c ;; k" := (bind c (fun x => k))
  (at level 61, c at next level, right associativity) : m_scope.
Notation "c ;; k" := (bind c (fun _ => k))
  (at level 61, right associativity) : m_scope.
Local Open Scope m_scope.

(** Modelled from the spec: the macro [CATCH_AC] is defined in a header
    outside this file; it catches every failure of the [try] block and
    logs it with the identity of the aircraft. *)
Definition catch_ac (id : Z) (c : M unit) : list HostCall :=
  match c with
  | (t, Returns _) => t
  | (t, Throws w) => t ++ [LogAcException id w]
  end.

(* ================================================================== *)
(** ** Reading the frame state *)
(* ================================================================== *)

(** [XPLMGetDatavf(dr, out, 0, n)] overwrites the first elements of [out]
    with at most [n] values of the dataref; a null handle delivers none. *)
Definition GetDatavf (xp : XPlane) (dr : XPLMDataRef) (out : list float) (n : nat) : list float :=
  match dr with
  | Some name => let got := firstn n (xp_datavf xp name) in
                 got ++ skipn (List.length got) out
  | None => out
  end.

(** [XPLMGetDatai] and [XPLMGetDataf] return zero for a null handle. *)
Definition GetDatai (xp : XPlane) (dr : XPLMDataRef) : Z :=
  match dr with Some name => xp_datai xp name | None => 0 end.

Definition GetDataf (xp : XPlane) (dr : XPLMDataRef) : float :=
  match dr with Some name => xp_dataf xp name | None => f_0_0 end.

(** Once per cycle read necessary matrices from X-Plane. *)
Definition read_matrices (xp : XPlane) (dr : DataRefs) (fs : FrameState)
  : FrameState * list HostCall :=
  ({| gMatrixWrld := GetDatavf xp (drMatrixWrld dr) (gMatrixWrld fs) 16;
      gMatrixProj := GetDatavf xp (drMatrixProj dr) (gMatrixProj fs) 16;
      gScreenW := f32_of_int (GetDatai xp (drScreenWidth dr));
      gScreenH := f32_of_int (GetDatai xp (drScreenHeight dr));
      gFOV := GetDataf xp (drFieldOfView dr) |},
   [ XPLMGetDatavf (drMatrixWrld dr) 0 16;
     XPLMGetDatavf (drMatrixProj dr) 0 16;
     XPLMGetDatai (drScreenWidth dr);
     XPLMGetDatai (drScreenHeight dr);
     XPLMGetDataf (drFieldOfView dr) ]).

(* ================================================================== *)
(** ** Drawing *)
(* ================================================================== *)

Definition DrawTranslucentBox (left top right bottom r g b a : float) : M unit :=
  call (XPLMSetGraphicsState 0 0 0 0 1 1 0) ;;
  call (glColor4f r g b a) ;;
  call glBegin_GL_QUADS ;;
  call (glVertex2f left bottom) ;;
  call (glVertex2f left top) ;;
  call (glVertex2f right top) ;;
  call (glVertex2f right bottom) ;;
  call glEnd.

(** The colour of the sub-label, [{1.0f, 1.0f, 1.0f, 0.6f}]. *)
Definition gray : RGBA := (f_1_0, f_1_0, f_1_0, f_0_6).

Definition is_null {A} (p : option A) : bool :=
  match p with Some _ => false | None => true end.

Definition string_empty (s : string) : bool :=
  match s with EmptyString => true | String _ _ => false end.

(** The value [XPLMGetDataf(drVisibility)] or [glob.maxLabelDist] of the
    conditional inside [std::min], with the call it makes. *)
Definition effectiveVisibility (glob : GlobVars) (xp : XPlane) (dr : DataRefs)
  : float * list HostCall :=
  if bLabelCutOffAtVisibility glob && negb (is_null (drVisibility dr))
  then (GetDataf xp (drVisibility dr), [XPLMGetDataf (drVisibility dr)])
  else (maxLabelDist glob, []).

(** The local constant [maxLabelDist] of [TwoDDrawLabels], from the
    configured maximum, the second argument of [std::min] and the zoom. *)
Definition labelDistance (configured effVis zoom : float) : float :=
  std_min configured effVis |*| zoom.

(** The vertical label offset, from the wake-turbulence category. *)
Definition vertLabelOfs (ac : Aircraft) : M float :=
  pCSLMdl <- eval (GetModel ac) ;;
  match pCSLMdl with
  | Some mdl =>
      doc <- eval (GetDoc8643 mdl) ;;
      let c := char0 (wtc doc) in
      if Ascii.eqb c "L" then ret f_6_0
      else if Ascii.eqb c "H" then ret f_11_0
      else ret f_10_0
  | None => ret f_10_0
  end.

Section LabelPass.
Context {rt : CRuntime}.

(** "Finally: Draw the label": the end of the loop body, from the two
    [XPLMMeasureString] on, for a label projected to [(x, y)]. *)
Definition draw_label (xp : XPlane) (ac : Aircraft) (x y : Z) : M unit :=
  call (XPLMMeasureString (label ac) (String.length (label ac))) ;;
  let labelWidth := int_of_float (xp_measure xp (label ac)) in
  call (XPLMMeasureString (subLabel ac) (String.length (subLabel ac))) ;;
  let subLabelWidth := int_of_float (xp_measure xp (subLabel ac)) in
  let boxWidth := if subLabelWidth >? labelWidth then subLabelWidth else labelWidth in
  let boxXStart := int_sub x (int_div boxWidth 2) in
  let '(r, g, b, a) := colBackground ac in
  DrawTranslucentBox (f32_of_int (int_sub boxXStart 5))
                     (f32_of_int (int_add y 15))
                     (f32_of_int (int_add (int_add boxXStart boxWidth) 5))
                     (f32_of_int (int_sub y 10))
                     r g b a ;;
  let labelX := int_add boxXStart (int_div (int_sub boxWidth labelWidth) 2) in
  call (XPLMDrawString (colLabel ac) labelX y (label ac)) ;;
  if negb (string_empty (subLabel ac)) then
    let subLabelX := int_add boxXStart (int_div (int_sub boxWidth subLabelWidth) 2) in
    call (XPLMDrawString gray subLabelX (int_sub y 25) (subLabel ac))
  else ret tt.

(** The body of the [try] block for one aircraft; [ret tt] where the
    source says [continue]. [dist] is the local [maxLabelDist]. *)
Definition label_aircraft (glob : GlobVars) (xp : XPlane) (fs : FrameState)
  (dist : float) (ac : Aircraft) : M unit :=
  rendered <- eval (IsRendered ac) ;;
  if negb rendered then ret tt else
  shall <- eval (ShallDrawLabel ac) ;;
  if negb (shall || SwitchCfg_eqb (eLabelOverride glob) SWITCH_CFG_ON) then ret tt else
  camDist <- eval (GetCameraDist ac) ;;
  if f32_lt dist camDist then ret tt else
  ofs <- vertLabelOfs ac ;;
  let p := ConvertTo2d (UsingModernGraphicsDriver glob) fs
             (drawInfo_x ac) (drawInfo_y ac |+| ofs) (drawInfo_z ac) in
  if negb (visible p) then ret tt else
  draw_label xp ac (out_x p) (out_y p).

(** One turn of the loop: the [try] block and [CATCH_AC]. *)
Definition loop_turn (glob : GlobVars) (xp : XPlane) (fs : FrameState)
  (dist : float) (p : Z * Aircraft) : list HostCall :=
  catch_ac (fst p) (label_aircraft glob xp fs dist (snd p)).

(** What the pass does before the loop: the frame state it leaves, the
    local [maxLabelDist] and the calls made. *)
Definition pass_setup (glob : GlobVars) (xp : XPlane) (dr : DataRefs) (fs : FrameState)
  : FrameState * float * list HostCall :=
  let (fs', t1) := read_matrices xp dr fs in
  let (effVis, t2) := effectiveVisibility glob xp dr in
  (fs', labelDistance (maxLabelDist glob) effVis (xp_camera_zoom xp),
   t1 ++ [XPLMReadCameraPosition] ++ t2).

(** Write the labels of all aircraft: the frame state after the call and
    the host calls made, in order. *)
Definition TwoDDrawLabels (glob : GlobVars) (xp : XPlane) (dr : DataRefs) (fs : FrameState)
  : FrameState * list HostCall :=
  if negb (bDrawLabels glob) || SwitchCfg_eqb (eLabelOverride glob) SWITCH_CFG_OFF
  then (fs, [])
  else
    let '(fs', dist, t) := pass_setup glob xp dr fs in
    (fs', t ++ flat_map (loop_turn glob xp fs' dist) (mapAc glob)).

End LabelPass.

(* ================================================================== *)
(** ** Drawing control and the API *)
(* ================================================================== *)

Definition TwoDActivate : list HostCall := [XPLMRegisterDrawCallback].
Definition TwoDDeactivate : list HostCall := [XPLMUnregisterDrawCallback].

Definition XPLMFindDataRef (xp : XPlane) (name : string) : XPLMDataRef :=
  if xp_has_dataref xp name then Some name else None.

Definition TwoDInit (glob : GlobVars) (xp : XPlane) : DataRefs * list HostCall :=
  ({| drMatrixWrld := XPLMFindDataRef xp "sim/graphics/view/world_matrix";
      drMatrixProj := XPLMFindDataRef xp "sim/graphics/view/projection_matrix_3d";
      drScreenWidth := XPLMFindDataRef xp "sim/graphics/view/window_width";
      drScreenHeight := XPLMFindDataRef xp "sim/graphics/view/window_height";
      drVisibility :=
        match XPLMFindDataRef xp "sim/graphics/view/visibility_effective_m" with
        | Some d => Some d
        | None => XPLMFindDataRef xp "sim/weather/visibility_effective_m"
        end;
      drFieldOfView := XPLMFindDataRef xp "sim/graphics/view/field_of_view_deg" |},
   if bDrawLabels glob then TwoDActivate else []).

Definition set_bDrawLabels (glob : GlobVars) (b : bool) : GlobVars :=
  {| bDrawLabels := b;
     eLabelOverride := eLabelOverride glob;
     maxLabelDist := maxLabelDist glob;
     bLabelCutOffAtVisibility := bLabelCutOffAtVisibility glob;
     UsingModernGraphicsDriver := UsingModernGraphicsDriver glob;
     mapAc := mapAc glob |}.

Definition set_mapAc (glob : GlobVars) (acs : list (Z * Aircraft)) : GlobVars :=
  {| bDrawLabels := bDrawLabels glob;
     eLabelOverride := eLabelOverride glob;
     maxLabelDist := maxLabelDist glob;
     bLabelCutOffAtVisibility := bLabelCutOffAtVisibility glob;
     UsingModernGraphicsDriver := UsingModernGraphicsDriver glob;
     mapAc := acs |}.

(** Enable/Disable/Query drawing of labels. *)
Definition XPMPEnableAircraftLabels (glob : GlobVars) (_enable : bool)
  : GlobVars * list HostCall :=
  let '(enable, t1) :=
    match eLabelOverride glob with
    | SWITCH_CFG_ON =>
        (true, [LOG_MSG "Label drawing enforced ON in an XPMP2.prf config file"])
    | SWITCH_CFG_OFF =>
        (false, [LOG_MSG "Label drawing enforced OFF in an XPMP2.prf config file"])
    | SWITCH_CFG_AUTO => (_enable, [])
    end in
  if Bool.eqb (bDrawLabels glob) enable then (glob, t1)
  else
    (set_bDrawLabels glob enable,
     t1 ++ [LOG_MSG (if enable then "Aircraft labels enabled" else "Aircraft labels disabled")]
        ++ (if enable then TwoDActivate else TwoDDeactivate)).

Definition XPMPDisableAircraftLabels (glob : GlobVars) : GlobVars * list HostCall :=
  XPMPEnableAircraftLabels glob false.

Definition XPMPDrawingAircraftLabels (glob : GlobVars) : bool := bDrawLabels glob.

(** Configure maximum label distance and if labels shall be cut off at
    reported visibility. *)
Definition XPMPSetAircraftLabelDist (glob : GlobVars) (_dist_nm : float)
  (_bCutOffAtVisibility : bool) : GlobVars :=
  {| bDrawLabels := bDrawLabels glob;
     eLabelOverride := eLabelOverride glob;
     maxLabelDist := std_max _dist_nm f_1_0 |*| M_per_NM;
     bLabelCutOffAtVisibility := _bCutOffAtVisibility;
     UsingModernGraphicsDriver := UsingModernGraphicsDriver glob;
     mapAc := mapAc glob |}.

(* ================================================================== *)
(** ** The statements of the specification *)
(* ================================================================== *)

(** The clip range of the depth: [[0,1]] for the modern (Vulkan-style)
    backend, [[-1,1]] for the legacy (OpenGL-style) one. *)
Definition clip_lo (modern : bool) : float := if modern then f_0_0 else f_m1_0.
Definition clip_hi (modern : bool) : float := f_1_0.

(** The normalised device depth of a point. *)
Definition ndcZ (fs : FrameState) (x y z : float) : float := (ndc_coords fs x y z).[2].

(** [v] lies outside [[lo, hi]]: below [lo], above [hi], or not a number. *)
Definition outside_range (lo hi v : float) : Prop :=
  is_nan v = true \/ f32_lt v lo = true \/ f32_lt hi v = true.

(** The sum of a list of floats, added from left to right. *)
Definition sum_left (l : list float) : float :=
  match l with
  | [] => f_0_0
  | a :: r => fold_left f32_add r a
  end.

(** Row vector times matrix: [dst[i] = sum over j of v[j] * m[j*4+i]]. *)
Definition row_times_matrix (v m : list float) : list float :=
  map (fun i => sum_left (map (fun j => v.[j] |*| m.[j * 4 + i]) (seq 0 4))) (seq 0 4).

(** The clip-space vector of a point: the homogeneous vector times the
    world matrix times the projection matrix. *)
Definition clip_coords (fs : FrameState) (x y z : float) : list float :=
  row_times_matrix (row_times_matrix [x; y; z; f_1_0] (gMatrixWrld fs)) (gMatrixProj fs).

Section SpecProjection.
Context {rt : CRuntime}.

(** [round(size * (ndc*0.5 + 0.5))]. *)
Definition pixel (size ndc : float) : Z :=
  int_of_long (lround (size |*| (ndc |*| f_0_5 |+| f_0_5))).

(** The pixel coordinates when [x'] and [y'] are divided by [w']. *)
Definition project_by_division (fs : FrameState) (x y z : float) : Z * Z :=
  let c := clip_coords fs x y z in
  (pixel (gScreenW fs) (c.[0] |/| c.[3]), pixel (gScreenH fs) (c.[1] |/| c.[3])).

(** The pixel coordinates when [x'] and [y'] are multiplied by
    [invW = 1/w']. *)
Definition project_by_reciprocal (fs : FrameState) (x y z : float) : Z * Z :=
  let c := clip_coords fs x y z in
  let invW := f_1_0 |/| c.[3] in
  (pixel (gScreenW fs) (c.[0] |*| invW), pixel (gScreenH fs) (c.[1] |*| invW)).

End SpecProjection.

(** The vertical offset by wake-turbulence category; [None] when the
    aircraft has no model record. *)
Definition wake_offset (category : option ascii) : float :=
  match category with
  | Some c => if Ascii.eqb c "L" then f_6_0
              else if Ascii.eqb c "H" then f_11_0
              else f_10_0
  | None => f_10_0
  end.

(** The calls that draw: the quad of [DrawTranslucentBox] and the texts. *)
Definition is_draw_call (h : HostCall) : bool :=
  match h with
  | XPLMSetGraphicsState _ _ _ _ _ _ _ | glColor4f _ _ _ _ | glBegin_GL_QUADS
  | glVertex2f _ _ | glEnd | XPLMDrawString _ _ _ _ => true
  | _ => false
  end.

Definition draws (t : list HostCall) : bool := existsb is_draw_call t.

Definition pass_disabled (glob : GlobVars) : bool :=
  negb (bDrawLabels glob) || SwitchCfg_eqb (eLabelOverride glob) SWITCH_CFG_OFF.

Section PassParts.
Context {rt : CRuntime}.

(** The calls of a pass before its loop. *)
Definition setup_calls (glob : GlobVars) (xp : XPlane) (dr : DataRefs) (fs : FrameState)
  : list HostCall :=
  if pass_disabled glob then [] else snd (pass_setup glob xp dr fs).

(** The calls a pass makes for one entry of [mapAc]. *)
Definition calls_for (glob : GlobVars) (xp : XPlane) (dr : DataRefs) (fs : FrameState)
  (p : Z * Aircraft) : list HostCall :=
  if pass_disabled glob then []
  else loop_turn glob xp (fst (fst (pass_setup glob xp dr fs)))
                 (snd (fst (pass_setup glob xp dr fs))) p.

End PassParts.

(** The wake-turbulence category the pass reads for an aircraft: [None]
    without a model record. *)
Definition model_category (ac : Aircraft) : outcome (option ascii) :=
  match GetModel ac with
  | Returns (Some mdl) =>
      match GetDoc8643 mdl with
      | Returns doc => Returns (Some (char0 (wtc doc)))
      | Throws w => Throws w
      end
  | Returns None => Returns None
  | Throws w => Throws w
  end.

(** A translucent quad from [(left, top)] to [(right, bottom)] in the
    colour [c]. *)
Definition quad_calls (left top right bottom : float) (c : RGBA) : list HostCall :=
  let '(r, g, b, a) := c in
  [ XPLMSetGraphicsState 0 0 0 0 1 1 0;
    glColor4f r g b a;
    glBegin_GL_QUADS;
    glVertex2f left bottom;
    glVertex2f left top;
    glVertex2f right top;
    glVertex2f right bottom;
    glEnd ].

Section SpecLabel.
Context {rt : CRuntime}.

(** Project the position of the aircraft raised by [ofs] and, when it is
    visible, draw the label there. *)
Definition project_and_draw (glob : GlobVars) (xp : XPlane) (fs : FrameState)
  (ac : Aircraft) (ofs : float) : M unit :=
  let p := ConvertTo2d (UsingModernGraphicsDriver glob) fs
             (drawInfo_x ac) (drawInfo_y ac |+| ofs) (drawInfo_z ac) in
  if visible p then draw_label xp ac (out_x p) (out_y p) else ret tt.

End SpecLabel.

(* ================================================================== *)
(** ** Rounding to binary32, for the proofs about [|*|] *)
(* ================================================================== *)

(** [M / 2^k] rounded to the nearest integer, ties to even. *)
Definition rne (M k : Z) : Z :=
  let q := M / 2 ^ k in
  let r := M mod 2 ^ k in
  if 2 * r <? 2 ^ k then q
  else if 2 ^ k <? 2 * r then q + 1
  else if Z.even q then q else q + 1.

(** The record [mrs] is [M] shifted right by [k] bits, with its round and
    sticky bits. *)
Definition shr_inv (M k : Z) (mrs : shr_record) : Prop :=
  shr_m mrs = M / 2 ^ k /\
  (shr_r mrs = true <-> 2 ^ k <= 2 * (M mod 2 ^ k)) /\
  (shr_s mrs = true <-> M mod 2 ^ k <> 0 /\ 2 * (M mod 2 ^ k) <> 2 ^ k).

(** The binary32 datum of sign [s] for a rounded mantissa [m <= 2^24] at
    exponent [t]: renormalised after a carry, infinite on overflow. *)
Definition finalize (s : bool) (m t : Z) : float :=
  match m with
  | Z0 => S754_zero s
  | Zpos p =>
      if Zpos p <? 2 ^ 24
      then (if t <=? 104 then S754_finite s p t else S754_infinity s)
      else (if t + 1 <=? 104 then S754_finite s 8388608 (t + 1) else S754_infinity s)
  | Zneg _ => S754_nan
  end.

(** A zero or a positive finite binary32 datum. *)
Definition nonneg_finite (x : float) : bool :=
  match x with
  | S754_zero _ => true
  | S754_finite false m e => bounded prec32 emax32 m e
  | _ => false
  end.

(* ================================================================== *)
(** ** A scene to run the model on *)
(* ================================================================== *)

Definition f_0 : float := f_0_0.
Definition f_1 : float := f_1_0.

Definition identity4 : list float :=
  [ f_1; f_0; f_0; f_0;
    f_0; f_1; f_0; f_0;
    f_0; f_0; f_1; f_0;
    f_0; f_0; f_0; f_1 ].

(** The identity but for [m[15] = 160]: [w' = 160] for every point. *)
Definition demo_projection : list float :=
  [ f_1; f_0; f_0; f_0;
    f_0; f_1; f_0; f_0;
    f_0; f_0; f_1; f_0;
    f_0; f_0; f_0; f32_of_int 160 ].

Definition demo_frame : FrameState :=
  {| gMatrixWrld := identity4;
     gMatrixProj := demo_projection;
     gScreenW := f32_of_int 800;
     gScreenH := f32_of_int 600;
     gFOV := f32_of_int 60 |}.

(** Every string measures ten pixels a character. *)
Definition demo_xplane : XPlane :=
  {| xp_has_dataref := fun _ => true;
     xp_datavf := fun name =>
       if String.eqb name "sim/graphics/view/world_matrix" then identity4
       else demo_projection;
     xp_datai := fun name =>
       if String.eqb name "sim/graphics/view/window_width" then 800 else 600;
     xp_dataf := fun name =>
       if String.eqb name "sim/graphics/view/field_of_view_deg" then f32_of_int 60
       else f32_of_int 20000;
     xp_camera_zoom := f_1_0;
     xp_measure := fun s => f32_of_int (10 * Z.of_nat (String.length s)) |}.

Definition white : RGBA := (f_1_0, f_1_0, f_1_0, f_1_0).
Definition shade : RGBA := (f_0_0, f_0_0, f_0_0, f_0_5).

(** A rendered aircraft 3 km from the camera, of category [cat], with a
    label of 40 pixels and a sub-label of 70. *)
Definition demo_aircraft (labelFlag : bool) (cat : string) : Aircraft :=
  {| IsRendered := Returns true;
     ShallDrawLabel := Returns labelFlag;
     GetCameraDist := Returns (f32_of_int 3000);
     GetModel := Returns (Some {| GetDoc8643 := Returns {| wtc := cat |} |});
     drawInfo_x := f32_of_int (-47);
     drawInfo_y := f_0_0;
     drawInfo_z := f_0_0;
     label := "N123";
     subLabel := "B738 LH";
     colLabel := white;
     colBackground := shade |}.

(** The same aircraft, with its label flag off, while it is not rendered. *)
Definition unrendered_aircraft : Aircraft :=
  {| IsRendered := Returns false;
     ShallDrawLabel := Returns false;
     GetCameraDist := Returns (f32_of_int 3000);
     GetModel := Returns (Some {| GetDoc8643 := Returns {| wtc := "L" |} |});
     drawInfo_x := f32_of_int (-47);
     drawInfo_y := f_0_0;
     drawInfo_z := f_0_0;
     label := "N123";
     subLabel := "B738 LH";
     colLabel := white;
     colBackground := shade |}.

(** An aircraft whose model record cannot be read. *)
Definition broken_aircraft : Aircraft :=
  {| IsRendered := Returns true;
     ShallDrawLabel := Returns true;
     GetCameraDist := Returns (f32_of_int 3000);
     GetModel := Throws "corrupt model record";
     drawInfo_x := f_0_0;
     drawInfo_y := f_0_0;
     drawInfo_z := f_0_0;
     label := "BAD";
     subLabel := "";
     colLabel := white;
     colBackground := shade |}.

Definition demo_glob (enabled : bool) (override : SwitchCfg) (acs : list (Z * Aircraft))
  : GlobVars :=
  {| bDrawLabels := enabled;
     eLabelOverride := override;
     maxLabelDist := f32_of_int 9260;
     bLabelCutOffAtVisibility := true;
     UsingModernGraphicsDriver := true;
     mapAc := acs |}.

Definition demo_datarefs : DataRefs := fst (TwoDInit (demo_glob true SWITCH_CFG_AUTO []) demo_xplane).

(* ================================================================== *)
(** ** The rest of the module, and measures on traces *)
(* ================================================================== *)

Section Callback.
Context {rt : CRuntime}.

(** Drawing callback, called by X-Plane in every drawing cycle: the pass,
    and the value 1 it returns. *)
Definition CPLabelDrawing (glob : GlobVars) (xp : XPlane) (dr : DataRefs) (fs : FrameState)
  : FrameState * list HostCall * Z :=
  (TwoDDrawLabels glob xp dr fs, 1).

(** Whether the pass draws the label of an aircraft, from what its
    accessors return. *)
Definition label_shown (glob : GlobVars) (fs : FrameState) (dist : float) (ac : Aircraft)
  : bool :=
  match IsRendered ac, ShallDrawLabel ac, GetCameraDist ac, model_category ac with
  | Returns true, Returns s, Returns d, Returns c =>
      (s || SwitchCfg_eqb (eLabelOverride glob) SWITCH_CFG_ON)
      && negb (f32_lt dist d)
      && visible (ConvertTo2d (UsingModernGraphicsDriver glob) fs
                    (drawInfo_x ac) (drawInfo_y ac |+| wake_offset c) (drawInfo_z ac))
  | _, _, _, _ => false
  end.

End Callback.

(** Graceful cleanup: remove the drawing callback. *)
Definition TwoDCleanup : list HostCall := TwoDDeactivate.

(** The calls of the API that configure label drawing. *)
Inductive ApiCall : Type :=
| ApiEnable (_enable : bool)
| ApiDisable
| ApiSetLabelDist (_dist_nm : float) (_bCutOffAtVisibility : bool).

Definition api_step (glob : GlobVars) (c : ApiCall) : GlobVars * list HostCall :=
  match c with
  | ApiEnable b => XPMPEnableAircraftLabels glob b
  | ApiDisable => XPMPDisableAircraftLabels glob
  | ApiSetLabelDist d cut => (XPMPSetAircraftLabelDist glob d cut, [])
  end.

(** A sequence of API calls, one after the other. *)
Fixpoint api_run (glob : GlobVars) (cs : list ApiCall) : GlobVars * list HostCall :=
  match cs with
  | [] => (glob, [])
  | c :: cs' =>
      let (glob1, t1) := api_step glob c in
      let (glob2, t2) := api_run glob1 cs' in
      (glob2, t1 ++ t2)
  end.

(** Whether the drawing callback is registered after the calls [t], when
    it was ([reg = true]) or was not registered before; [None] when [t]
    registers it while it is registered. *)
Fixpoint callback_state (reg : bool) (t : list HostCall) : option bool :=
  match t with
  | [] => Some reg
  | XPLMRegisterDrawCallback :: t' => if reg then None else callback_state true t'
  | XPLMUnregisterDrawCallback :: t' => callback_state false t'
  | _ :: t' => callback_state reg t'
  end.

(** OpenGL immediate mode: outside of [glBegin]/[glEnd], or inside with
    the number of vertices given so far. *)
Inductive GLState : Type :=
| GLOutside
| GLInside (vertices : nat).

(** One call seen by OpenGL: [glBegin] opens, [glVertex2f] counts, [glEnd]
    closes a quad of four vertices, the colour may be set anywhere, and no
    other call of the trace is made between [glBegin] and [glEnd]. *)
Definition gl_step (st : GLState) (h : HostCall) : option GLState :=
  match h, st with
  | glBegin_GL_QUADS, GLOutside => Some (GLInside 0)
  | glBegin_GL_QUADS, GLInside _ => None
  | glVertex2f _ _, GLInside n => Some (GLInside (S n))
  | glVertex2f _ _, GLOutside => None
  | glEnd, GLInside 4 => Some GLOutside
  | glEnd, _ => None
  | glColor4f _ _ _ _, _ => Some st
  | _, GLOutside => Some st
  | _, GLInside _ => None
  end.

Fixpoint gl_run (st : GLState) (t : list HostCall) : option GLState :=
  match t with
  | [] => Some st
  | h :: t' =>
      match gl_step st h with
      | Some st' => gl_run st' t'
      | None => None
      end
  end.

Definition count_calls (f : HostCall -> bool) (t : list HostCall) : nat :=
  List.length (filter f t).

Definition is_quad_begin (h : HostCall) : bool :=
  match h with glBegin_GL_QUADS => true | _ => false end.

Definition is_log (h : HostCall) : bool :=
  match h with LogAcException _ _ => true | _ => false end.

(** The calls that read the state of the simulator. *)
Definition is_data_read (h : HostCall) : bool :=
  match h with
  | XPLMGetDatavf _ _ _ | XPLMGetDatai _ | XPLMGetDataf _ | XPLMReadCameraPosition => true
  | _ => false
  end.

(* ================================================================== *)
(** * Properties *)
(* ================================================================== *)

(** ** Rounding to binary32 is monotone *)

Lemma digits2_pos_bounds (m : positive) :
  2 ^ (Zpos (digits2_pos m) - 1) <= Zpos m < 2 ^ Zpos (digits2_pos m).
Proof.
  induction m as [p IH | p IH |]; cbn [digits2_pos].
  - rewrite Pos2Z.inj_succ, (Pos2Z.inj_xI p).
    pose proof (Pos2Z.is_pos (digits2_pos p)) as Hd.
    set (d := Zpos (digits2_pos p)) in *. clearbody d.
    replace (Z.succ d - 1) with (Z.succ (d - 1)) by lia.
    rewrite !Z.pow_succ_r by lia. lia.
  - rewrite Pos2Z.inj_succ, (Pos2Z.inj_xO p).
    pose proof (Pos2Z.is_pos (digits2_pos p)) as Hd.
    set (d := Zpos (digits2_pos p)) in *. clearbody d.
    replace (Z.succ d - 1) with (Z.succ (d - 1)) by lia.
    rewrite !Z.pow_succ_r by lia. lia.
  - cbn. lia.
Qed.

Lemma split_next_bit (M k : Z) :
  0 <= M -> 0 <= k ->
  M / 2 ^ (k + 1) = (M / 2 ^ k) / 2 /\
  M mod 2 ^ (k + 1) = M mod 2 ^ k + 2 ^ k * ((M / 2 ^ k) mod 2).
Proof.
  intros HM Hk.
  assert (Hp : 0 < 2 ^ k) by (apply Z.pow_pos_nonneg; lia).
  rewrite Z.pow_add_r, Z.pow_1_r by lia.
  split.
  - rewrite Z.div_div by lia. reflexivity.
  - apply Z.rem_mul_r; lia.
Qed.

Lemma shr_1_inv (M k : Z) (mrs : shr_record) :
  0 <= M -> 0 <= k -> shr_inv M k mrs -> shr_inv M (k + 1) (shr_1 mrs).
Proof.
  intros HM Hk (Hm & Hr & Hs).
  destruct (split_next_bit M k HM Hk) as [Hq Hrem].
  assert (Hp : 0 < 2 ^ k) by (apply Z.pow_pos_nonneg; lia).
  assert (Hb : 0 <= M mod 2 ^ k < 2 ^ k) by (apply Z.mod_pos_bound; lia).
  assert (Hq0 : 0 <= M / 2 ^ k) by (apply Z.div_pos; lia).
  assert (Hs' : shr_r mrs || shr_s mrs = true <-> M mod 2 ^ k <> 0).
  { rewrite orb_true_iff, Hr, Hs. lia. }
  unfold shr_inv. rewrite Hq, Hrem.
  replace (2 ^ (k + 1)) with (2 * 2 ^ k) by (rewrite Z.pow_add_r, Z.pow_1_r by lia; lia).
  destruct mrs as [m r s]. cbn [shr_m shr_r shr_s] in *. rewrite <- Hm.
  destruct m as [| [p | p |] | p]; cbn [shr_1 shr_m shr_r shr_s]; try lia.
  - (* 0 *) change (0 / 2) with 0. change (0 mod 2) with 0.
    rewrite Hs'. repeat split; try lia; try discriminate.
  - (* xI *)
    rewrite (Pos2Z.inj_xI p).
    replace ((2 * Zpos p + 1) / 2) with (Zpos p) by (apply Z.div_unique with 1; lia).
    replace ((2 * Zpos p + 1) mod 2) with 1 by (apply Z.mod_unique with (Zpos p); lia).
    rewrite Hs'. repeat split; try lia; try discriminate.
  - (* xO *)
    rewrite (Pos2Z.inj_xO p).
    replace ((2 * Zpos p) / 2) with (Zpos p) by (apply Z.div_unique with 0; lia).
    replace ((2 * Zpos p) mod 2) with 0 by (apply Z.mod_unique with (Zpos p); lia).
    rewrite Hs'. repeat split; try lia; try discriminate.
  - (* 1 *) change (1 / 2) with 0. change (1 mod 2) with 1.
    rewrite Hs'. repeat split; try lia; try discriminate.
Qed.

Lemma iter_pos_shr_inv (p : positive) :
  forall (M k : Z) (mrs : shr_record),
  0 <= M -> 0 <= k -> shr_inv M k mrs ->
  shr_inv M (k + Zpos p) (iter_pos shr_1 p mrs).
Proof.
  induction p as [p IH | p IH |]; intros M k mrs HM Hk H; cbn [iter_pos].
  - replace (k + Zpos p~1) with (k + 1 + Zpos p + Zpos p) by lia.
    apply IH; try lia. apply IH; try lia. apply shr_1_inv; assumption.
  - replace (k + Zpos p~0) with (k + Zpos p + Zpos p) by lia.
    apply IH; try lia. apply IH; try lia. assumption.
  - apply shr_1_inv; assumption.
Qed.

Lemma shr_inv_start (M : Z) : shr_inv M 0 (Build_shr_record M false false).
Proof.
  unfold shr_inv. cbn [shr_m shr_r shr_s].
  rewrite Z.pow_0_r, Z.div_1_r, Z.mod_1_r. repeat split; try lia; try discriminate.
Qed.

Lemma round_of_shr_inv (M k : Z) (mrs : shr_record) :
  shr_inv M k mrs ->
  round_nearest_even (shr_m mrs) (loc_of_shr_record mrs) = rne M k.
Proof.
  intros (Hm & Hr & Hs). unfold rne. rewrite <- Hm.
  destruct mrs as [m r s]. cbn [shr_m shr_r shr_s] in *.
  destruct (Z.ltb_spec (2 * (M mod 2 ^ k)) (2 ^ k)) as [H1 | H1].
  - destruct r; [ exfalso; lia | ].
    destruct s; reflexivity.
  - assert (r = true) by (apply Hr; lia). subst r.
    destruct (Z.ltb_spec (2 ^ k) (2 * (M mod 2 ^ k))) as [H2 | H2].
    + assert (s = true) as -> by (apply Hs; lia). reflexivity.
    + destruct s; [ exfalso; lia | ]. reflexivity.
Qed.

Lemma pow2_pos (k : Z) : 0 <= k -> 0 < 2 ^ k.
Proof. intros. apply Z.pow_pos_nonneg; lia. Qed.

Lemma pow2_lt_inv (a b : Z) : 0 <= b -> 2 ^ a < 2 ^ b -> a < b.
Proof. intros Hb H. apply (Z.pow_lt_mono_r_iff 2); lia. Qed.

Lemma pow2_le (a b : Z) : 0 <= a <= b -> 2 ^ a <= 2 ^ b.
Proof. intros. apply Z.pow_le_mono_r; lia. Qed.

Lemma rne_cases (M k : Z) : rne M k = M / 2 ^ k \/ rne M k = M / 2 ^ k + 1.
Proof.
  unfold rne.
  destruct (2 * (M mod 2 ^ k) <? 2 ^ k); [ now left | ].
  destruct (2 ^ k <? 2 * (M mod 2 ^ k)); [ now right | ].
  destruct (Z.even (M / 2 ^ k)); [ now left | now right ].
Qed.

Lemma rne_bounds (M k p : Z) :
  0 <= k -> 0 <= p -> 0 <= M < 2 ^ (k + p) -> 0 <= rne M k <= 2 ^ p.
Proof.
  intros Hk Hp [H0 H1].
  pose proof (pow2_pos k Hk) as Hk2.
  assert (0 <= M / 2 ^ k) by (apply Z.div_pos; lia).
  assert (M / 2 ^ k < 2 ^ p).
  { apply Z.div_lt_upper_bound; [ lia | ]. rewrite <- Z.pow_add_r by lia. exact H1. }
  destruct (rne_cases M k) as [-> | ->]; lia.
Qed.

Lemma rne_nonneg (M k : Z) : 0 <= k -> 0 <= M -> 0 <= rne M k.
Proof.
  intros Hk HM. pose proof (pow2_pos k Hk).
  assert (0 <= M / 2 ^ k) by (apply Z.div_pos; lia).
  destruct (rne_cases M k) as [-> | ->]; lia.
Qed.

Lemma rne_lower (M k p : Z) :
  0 <= k -> 0 <= p -> 2 ^ (k + p) <= M -> 2 ^ p <= rne M k.
Proof.
  intros Hk Hp H.
  pose proof (pow2_pos k Hk) as Hk2.
  assert (2 ^ p <= M / 2 ^ k).
  { apply Z.div_le_lower_bound; [ lia | ]. rewrite <- Z.pow_add_r by lia. exact H. }
  destruct (rne_cases M k) as [-> | ->]; lia.
Qed.

Lemma rne_mono (M1 M2 k : Z) :
  0 <= k -> 0 <= M1 <= M2 -> rne M1 k <= rne M2 k.
Proof.
  intros Hk [H0 H12].
  pose proof (pow2_pos k Hk) as Hk2.
  assert (Hq : M1 / 2 ^ k <= M2 / 2 ^ k) by (apply Z.div_le_mono; lia).
  destruct (Z.eq_dec (M1 / 2 ^ k) (M2 / 2 ^ k)) as [E | NE].
  - pose proof (Z.div_mod M1 (2 ^ k) ltac:(lia)) as D1.
    pose proof (Z.div_mod M2 (2 ^ k) ltac:(lia)) as D2.
    assert (Hr : M1 mod 2 ^ k <= M2 mod 2 ^ k) by (rewrite E in D1; lia).
    unfold rne. rewrite E.
    destruct (Z.ltb_spec (2 * (M1 mod 2 ^ k)) (2 ^ k));
    destruct (Z.ltb_spec (2 * (M2 mod 2 ^ k)) (2 ^ k));
    destruct (Z.ltb_spec (2 ^ k) (2 * (M1 mod 2 ^ k)));
    destruct (Z.ltb_spec (2 ^ k) (2 * (M2 mod 2 ^ k)));
    destruct (Z.even (M2 / 2 ^ k)); lia.
  - destruct (rne_cases M1 k) as [-> | ->], (rne_cases M2 k) as [-> | ->]; lia.
Qed.

Lemma rne_scale (M k j : Z) :
  0 <= k -> 0 <= j -> rne (M * 2 ^ j) (k + j) = rne M k.
Proof.
  intros Hk Hj.
  pose proof (pow2_pos k Hk) as Hk2. pose proof (pow2_pos j Hj) as Hj2.
  unfold rne. rewrite Z.pow_add_r by lia.
  rewrite Z.div_mul_cancel_r by lia.
  rewrite Z.mul_mod_distr_r by lia.
  set (r := M mod 2 ^ k). set (q := M / 2 ^ k).
  destruct (Z.ltb_spec (2 * r) (2 ^ k));
    destruct (Z.ltb_spec (2 * (r * 2 ^ j)) (2 ^ k * 2 ^ j)); try reflexivity; try nia.
  destruct (Z.ltb_spec (2 ^ k) (2 * r));
    destruct (Z.ltb_spec (2 ^ k * 2 ^ j) (2 * (r * 2 ^ j))); try reflexivity; nia.
Qed.

Lemma fexp32 (x : Z) : fexp 24 128 x = Z.max (x - 24) (-149).
Proof. reflexivity. Qed.

Lemma digits_le_24 (p : positive) : Zpos p < 2 ^ 24 -> Zpos (digits2_pos p) <= 24.
Proof.
  intros H. pose proof (digits2_pos_bounds p) as [Hlo _].
  assert (Zpos (digits2_pos p) - 1 < 24); [ | lia ].
  apply pow2_lt_inv; lia.
Qed.

Lemma binary_round_aux_exact (s : bool) (m : positive) (e : Z) :
  e <= fexp 24 128 (Zpos (digits2_pos m) + e) ->
  binary_round_aux 24 128 s (Zpos m) e loc_Exact =
  finalize s (rne (Zpos m) (fexp 24 128 (Zpos (digits2_pos m) + e) - e))
             (fexp 24 128 (Zpos (digits2_pos m) + e)).
Proof.
  intros Hsh.
  pose proof (digits2_pos_bounds m) as [_ Hd].
  pose proof (Pos2Z.is_pos (digits2_pos m)) as Hdpos.
  unfold binary_round_aux, shr_fexp. cbn [Zdigits2 shr_record_of_loc].
  set (d := Zpos (digits2_pos m)) in *.
  set (t := fexp 24 128 (d + e)) in *.
  assert (Ht : -149 <= t /\ d + e - 24 <= t) by (unfold t; rewrite fexp32; lia).
  assert (Hfirst : exists mrs', shr (Build_shr_record (Zpos m) false false) e (t - e) = (mrs', t)
                                /\ shr_inv (Zpos m) (t - e) mrs').
  { unfold shr. destruct (t - e) as [| p | p] eqn:Hk.
    - exists (Build_shr_record (Zpos m) false false). split.
      + f_equal. lia.
      + apply shr_inv_start.
    - exists (iter_pos shr_1 p (Build_shr_record (Zpos m) false false)). split.
      + f_equal. lia.
      + change (Zpos p) with (0 + Zpos p). apply iter_pos_shr_inv; try lia. apply shr_inv_start.
    - lia. }
  destruct Hfirst as (mrs' & -> & Hinv).
  rewrite (round_of_shr_inv _ _ _ Hinv).
  assert (Hb : 0 <= rne (Zpos m) (t - e) <= 2 ^ 24).
  { apply rne_bounds; try lia. split; [ lia | ].
    eapply Z.lt_le_trans; [ exact Hd | ]. apply pow2_le. lia. }
  destruct (rne (Zpos m) (t - e)) as [| p' | p'] eqn:Hm'.
  - (* rounded to zero *)
    cbn [Zdigits2 finalize]. unfold shr.
    destruct (fexp 24 128 (0 + t) - t) as [| q | q] eqn:Hn; cbn [shr_m fst snd]; try reflexivity.
    rewrite fexp32 in Hn. lia.
  - cbn [Zdigits2 finalize].
    destruct (Z.ltb_spec (Zpos p') (2 ^ 24)) as [Hlt | Hge].
    + pose proof (digits_le_24 p' Hlt) as Hd'.
      unfold shr.
      destruct (fexp 24 128 (Zpos (digits2_pos p') + t) - t) as [| q | q] eqn:Hn;
        cbn [shr_m]; try reflexivity.
      rewrite fexp32 in Hn. lia.
    + assert (p' = 16777216%positive) by lia. subst p'.
      change (Zpos (digits2_pos 16777216)) with 25.
      replace (fexp 24 128 (25 + t) - t) with 1 by (rewrite fexp32; lia).
      reflexivity.
  - lia.
Qed.

Lemma finalize_mono_same (a b t : Z) :
  0 <= a <= b -> b <= 2 ^ 24 ->
  SFleb (finalize false a t) (finalize false b t) = true.
Proof.
  intros [Ha Hab] Hb. unfold finalize.
  destruct a as [| pa | pa], b as [| pb | pb]; try lia.
  - reflexivity.
  - destruct (Zpos pb <? 2 ^ 24), (t <=? 104), (t + 1 <=? 104); reflexivity.
  - destruct (Z.ltb_spec (Zpos pa) (2 ^ 24)) as [Ha' | Ha'];
    destruct (Z.ltb_spec (Zpos pb) (2 ^ 24)) as [Hb' | Hb']; try lia.
    + destruct (t <=? 104); [ | reflexivity ].
      unfold SFleb, SFcompare. rewrite Z.compare_refl.
      change (Pos.compare_cont Eq pa pb) with (Z.compare (Zpos pa) (Zpos pb)).
      destruct (Z.compare_spec (Zpos pa) (Zpos pb)); try reflexivity. lia.
    + destruct (Z.leb_spec t 104), (Z.leb_spec (t + 1) 104); try reflexivity; try lia.
      unfold SFleb, SFcompare.
      destruct (Z.compare_spec t (t + 1)); try reflexivity; lia.
    + destruct (Z.leb_spec (t + 1) 104); [ | reflexivity ].
      unfold SFleb, SFcompare. rewrite Z.compare_refl. reflexivity.
Qed.

Lemma finalize_mono_next (a b t1 t2 : Z) :
  t1 < t2 -> 0 <= a <= 2 ^ 24 -> 2 ^ 23 <= b <= 2 ^ 24 ->
  SFleb (finalize false a t1) (finalize false b t2) = true.
Proof.
  intros Ht Ha Hb. unfold finalize.
  destruct b as [| pb | pb]; try lia.
  destruct a as [| pa | pa]; try lia.
  - destruct (Zpos pb <? 2 ^ 24), (t2 <=? 104), (t2 + 1 <=? 104); reflexivity.
  - destruct (Z.ltb_spec (Zpos pa) (2 ^ 24)) as [Ha' | Ha'];
    destruct (Z.ltb_spec (Zpos pb) (2 ^ 24)) as [Hb' | Hb'];
    destruct (Z.leb_spec t1 104), (Z.leb_spec (t1 + 1) 104),
             (Z.leb_spec t2 104), (Z.leb_spec (t2 + 1) 104);
    try reflexivity; try lia;
    unfold SFleb, SFcompare;
    match goal with
    | |- context [Z.compare ?x ?y] => destruct (Z.compare_spec x y); try reflexivity; try lia
    end.
    all: try (subst t2; change (Pos.compare_cont Eq 8388608 pb) with (Z.compare (Zpos 8388608) (Zpos pb));
              destruct (Z.compare_spec (Zpos 8388608) (Zpos pb)); try reflexivity; lia).
Qed.

Lemma binary_round_aux_mono (m1 m2 : positive) (e1 e2 : Z) :
  e1 <= e2 ->
  e1 <= fexp 24 128 (Zpos (digits2_pos m1) + e1) ->
  e2 <= fexp 24 128 (Zpos (digits2_pos m2) + e2) ->
  Zpos m1 <= Zpos m2 * 2 ^ (e2 - e1) ->
  SFleb (binary_round_aux 24 128 false (Zpos m1) e1 loc_Exact)
        (binary_round_aux 24 128 false (Zpos m2) e2 loc_Exact) = true.
Proof.
  intros He H1 H2 Hle.
  rewrite !binary_round_aux_exact by assumption.
  pose proof (digits2_pos_bounds m1) as [Hlo1 Hhi1].
  pose proof (digits2_pos_bounds m2) as [Hlo2 Hhi2].
  pose proof (Pos2Z.is_pos (digits2_pos m1)) as Hd1.
  pose proof (Pos2Z.is_pos (digits2_pos m2)) as Hd2.
  pose proof (Pos2Z.is_pos m1) as Hm1.
  pose proof (Pos2Z.is_pos m2) as Hm2.
  set (d1 := Zpos (digits2_pos m1)) in *. set (d2 := Zpos (digits2_pos m2)) in *.
  set (M1 := Zpos m1) in *. set (M2 := Zpos m2) in *.
  clearbody d1 d2 M1 M2.
  set (t1 := fexp 24 128 (d1 + e1)) in *.
  set (t2 := fexp 24 128 (d2 + e2)) in *.
  assert (Et1 : t1 = Z.max (d1 + e1 - 24) (-149)) by reflexivity.
  assert (Et2 : t2 = Z.max (d2 + e2 - 24) (-149)) by reflexivity.
  clearbody t1 t2.
  (* the digit counts are ordered as the values are *)
  assert (HD : d1 + e1 <= d2 + e2).
  { assert (2 ^ (d1 - 1) < 2 ^ (d2 + (e2 - e1))).
    { eapply Z.le_lt_trans; [ exact Hlo1 | ].
      eapply Z.le_lt_trans; [ exact Hle | ].
      rewrite Z.pow_add_r by lia.
      apply Z.mul_lt_mono_pos_r; [ apply pow2_pos; lia | exact Hhi2 ]. }
    assert (d1 - 1 < d2 + (e2 - e1)) by (apply pow2_lt_inv; lia). lia. }
  assert (Ht : t1 <= t2) by lia.
  assert (Hb1 : 0 <= rne M1 (t1 - e1) <= 2 ^ 24).
  { apply rne_bounds; try lia. split; [ lia | ].
    eapply Z.lt_le_trans; [ exact Hhi1 | ]. apply pow2_le. lia. }
  assert (Hb2 : 0 <= rne M2 (t2 - e2) <= 2 ^ 24).
  { apply rne_bounds; try lia. split; [ lia | ].
    eapply Z.lt_le_trans; [ exact Hhi2 | ]. apply pow2_le. lia. }
  destruct (Z.eq_dec t1 t2) as [E | NE].
  - rewrite <- E in *.
    apply finalize_mono_same; [ | lia ]. split; [ lia | ].
    rewrite <- (rne_scale M2 (t1 - e2) (e2 - e1)) by lia.
    replace (t1 - e2 + (e2 - e1)) with (t1 - e1) by lia.
    apply rne_mono; lia.
  - apply finalize_mono_next; try lia.
    split; [ | lia ].
    assert (t2 = d2 + e2 - 24) as Et2' by lia.
    apply rne_lower; try lia.
    replace (t2 - e2 + 23) with (d2 - 1) by lia. exact Hlo2.
Qed.

Lemma bounded_canonical (m : positive) (e : Z) :
  bounded 24 128 m e = true ->
  fexp 24 128 (Zpos (digits2_pos m) + e) = e /\ e <= 104.
Proof.
  unfold bounded, canonical_mantissa.
  rewrite andb_true_iff, Z.eqb_eq, Z.leb_le. intros [H1 H2]. split; [ exact H1 | exact H2 ].
Qed.

Lemma digits2_pos_mul (a b : positive) :
  Zpos (digits2_pos a) + Zpos (digits2_pos b) - 1 <= Zpos (digits2_pos (a * b)).
Proof.
  pose proof (digits2_pos_bounds a) as [Ha _].
  pose proof (digits2_pos_bounds b) as [Hb _].
  pose proof (digits2_pos_bounds (a * b)) as [_ Hab].
  pose proof (Pos2Z.is_pos (digits2_pos a)) as Hda.
  pose proof (Pos2Z.is_pos (digits2_pos b)) as Hdb.
  pose proof (Pos2Z.is_pos (digits2_pos (a * b))) as Hdab.
  rewrite Pos2Z.inj_mul in Hab.
  set (da := Zpos (digits2_pos a)) in *. set (db := Zpos (digits2_pos b)) in *.
  set (dab := Zpos (digits2_pos (a * b))) in *.
  assert (2 ^ (da - 1 + (db - 1)) < 2 ^ dab).
  { rewrite Z.pow_add_r by lia.
    eapply Z.le_lt_trans; [ | exact Hab ].
    apply Z.mul_le_mono_nonneg; try assumption; apply Z.pow_nonneg; lia. }
  assert (da - 1 + (db - 1) < dab) by (apply pow2_lt_inv; lia).
  lia.
Qed.

Lemma mul_shift_ok (a b : positive) (ea eb : Z) :
  bounded 24 128 a ea = true -> bounded 24 128 b eb = true ->
  ea + eb <= fexp 24 128 (Zpos (digits2_pos (a * b)) + (ea + eb)).
Proof.
  intros Ha Hb.
  apply bounded_canonical in Ha, Hb. destruct Ha as [Ha _], Hb as [Hb _].
  pose proof (digits2_pos_mul a b) as Hd.
  pose proof (Pos2Z.is_pos (digits2_pos a)) as Hda.
  pose proof (Pos2Z.is_pos (digits2_pos b)) as Hdb.
  rewrite fexp32 in *.
  set (da := Zpos (digits2_pos a)) in *. set (db := Zpos (digits2_pos b)) in *.
  set (dab := Zpos (digits2_pos (a * b))) in *.
  clearbody da db dab. lia.
Qed.

Lemma SFleb_finite_value (ma mb : positive) (ea eb : Z) :
  bounded 24 128 ma ea = true -> bounded 24 128 mb eb = true ->
  SFleb (S754_finite false ma ea) (S754_finite false mb eb) = true ->
  ea <= eb /\ Zpos ma <= Zpos mb * 2 ^ (eb - ea).
Proof.
  intros Ha Hb. apply bounded_canonical in Ha, Hb. destruct Ha as [Ha _], Hb as [Hb _].
  pose proof (digits2_pos_bounds ma) as [_ Hhi].
  pose proof (digits2_pos_bounds mb) as [Hlo _].
  pose proof (Pos2Z.is_pos (digits2_pos ma)) as Hda.
  pose proof (Pos2Z.is_pos (digits2_pos mb)) as Hdb.
  unfold SFleb, SFcompare.
  change (Pos.compare_cont Eq ma mb) with (Z.compare (Zpos ma) (Zpos mb)).
  rewrite fexp32 in *.
  set (da := Zpos (digits2_pos ma)) in *. set (db := Zpos (digits2_pos mb)) in *.
  clearbody da db.
  destruct (Z.compare_spec ea eb) as [E | L | G]; try discriminate.
  - subst eb. destruct (Z.compare_spec (Zpos ma) (Zpos mb)); try discriminate; intros _;
      rewrite Z.sub_diag, Z.pow_0_r; split; lia.
  - intros _. split; [ lia | ].
    assert (db = 24) by lia. subst db.
    assert (Zpos ma < 2 ^ 24).
    { eapply Z.lt_le_trans; [ exact Hhi | ]. apply pow2_le. lia. }
    assert (2 ^ 1 <= 2 ^ (eb - ea)) by (apply pow2_le; lia).
    change (2 ^ (24 - 1)) with 8388608 in Hlo. change (2 ^ 24) with 16777216 in *.
    change (2 ^ 1) with 2 in *. nia.
Qed.

Lemma SFleb_zero_finalize (s : bool) (m t : Z) :
  0 <= m -> SFleb (S754_zero s) (finalize false m t) = true.
Proof.
  intros Hm. unfold finalize. destruct m as [| p | p]; try lia.
  - reflexivity.
  - destruct (Zpos p <? 2 ^ 24), (t <=? 104), (t + 1 <=? 104); reflexivity.
Qed.

Lemma SFmul_comm (x y : spec_float) : SFmul 24 128 x y = SFmul 24 128 y x.
Proof.
  destruct x as [sx | sx | | sx mx ex], y as [sy | sy | | sy my ey]; cbn [SFmul];
    try rewrite (xorb_comm sx sy); try reflexivity.
  rewrite (Pos.mul_comm mx my), (Z.add_comm ex ey). reflexivity.
Qed.

Lemma SFmul_mono_l (a b z : spec_float) :
  nonneg_finite a = true -> nonneg_finite b = true -> nonneg_finite z = true ->
  SFleb a b = true ->
  SFleb (SFmul 24 128 a z) (SFmul 24 128 b z) = true.
Proof.
  intros Ha Hb Hz Hab.
  destruct z as [sz | | | [|] mz ez]; try discriminate.
  - (* z = 0 *)
    destruct a as [sa | | | [|] ma ea], b as [sb | | | [|] mb eb]; try discriminate; reflexivity.
  - destruct a as [sa | | | [|] ma ea], b as [sb | | | [|] mb eb]; try discriminate.
    + reflexivity.
    + cbn [SFmul xorb]. cbn [nonneg_finite] in Hb, Hz.
      rewrite binary_round_aux_exact by (apply mul_shift_ok; assumption).
      apply SFleb_zero_finalize.
      apply rne_nonneg; [ | lia ].
      pose proof (mul_shift_ok mb mz eb ez Hb Hz). lia.
    + cbn [SFmul xorb]. cbn [nonneg_finite] in Ha, Hb, Hz.
      destruct (SFleb_finite_value ma mb ea eb Ha Hb Hab) as [He Hv].
      apply binary_round_aux_mono; try (apply mul_shift_ok; assumption); try lia.
      replace (eb + ez - (ea + ez)) with (eb - ea) by lia.
      rewrite !Pos2Z.inj_mul.
      pose proof (Pos2Z.is_pos mz).
      set (P := 2 ^ (eb - ea)) in *. clearbody P. nia.
Qed.

Lemma SFmul_mono_r (c x y : spec_float) :
  nonneg_finite c = true -> nonneg_finite x = true -> nonneg_finite y = true ->
  SFleb x y = true ->
  SFleb (SFmul 24 128 c x) (SFmul 24 128 c y) = true.
Proof.
  intros. rewrite (SFmul_comm c x), (SFmul_comm c y). apply SFmul_mono_l; assumption.
Qed.

(** ** The order of binary32 data *)

Lemma SFcompare_antisym (x y : float) :
  SFcompare y x = option_map CompOpp (SFcompare x y).
Proof.
  destruct x as [sx | sx | | sx mx ex], y as [sy | sy | | sy my ey]; cbn [SFcompare option_map];
    try destruct sx; try destruct sy; try reflexivity;
    rewrite (Z.compare_antisym ex ey); destruct (ex ?= ey); cbn [CompOpp]; try reflexivity;
    change (Pos.compare_cont Eq my mx) with (Pos.compare my mx);
    change (Pos.compare_cont Eq mx my) with (Pos.compare mx my);
    rewrite (Pos.compare_antisym mx my); destruct (Pos.compare mx my); reflexivity.
Qed.

Lemma SFcompare_not_nan (x y : float) :
  is_nan x = false -> is_nan y = false -> exists c, SFcompare x y = Some c.
Proof.
  intros Hx Hy.
  destruct x as [sx | sx | | sx mx ex], y as [sy | sy | | sy my ey];
    try discriminate; cbn [SFcompare]; eexists; reflexivity.
Qed.

Lemma f32_lt_le (x y : float) : f32_lt x y = true -> f32_le x y = true.
Proof.
  unfold f32_lt, f32_le, SFltb, SFleb.
  destruct (SFcompare x y) as [[ | | ] | ]; intros; try discriminate; reflexivity.
Qed.

Lemma f32_le_false_iff (x y : float) :
  is_nan x = false -> is_nan y = false ->
  (f32_le x y = false <-> f32_lt y x = true).
Proof.
  intros Hx Hy. unfold f32_le, f32_lt, SFleb, SFltb.
  rewrite (SFcompare_antisym x y).
  destruct (SFcompare_not_nan x y Hx Hy) as [c ->].
  destruct c; cbn [option_map CompOpp]; split; intros; try discriminate; reflexivity.
Qed.

Lemma f32_le_nan_r (x : float) : f32_le x S754_nan = false.
Proof. destruct x; reflexivity. Qed.

Lemma f32_le_nan_l (x : float) : f32_le S754_nan x = false.
Proof. reflexivity. Qed.

Lemma nonneg_finite_not_nan (x : float) : nonneg_finite x = true -> is_nan x = false.
Proof. destruct x; intros; try discriminate; reflexivity. Qed.

Lemma f32_le_refl (x : float) : nonneg_finite x = true -> f32_le x x = true.
Proof.
  destruct x as [s | s | | [|] m e]; intros H; try discriminate; try reflexivity.
  unfold f32_le, SFleb, SFcompare. rewrite Z.compare_refl.
  change (Pos.compare_cont Eq m m) with (Z.compare (Zpos m) (Zpos m)). rewrite Z.compare_refl.
  reflexivity.
Qed.

Lemma f32_le_trans (x y z : float) :
  nonneg_finite x = true -> nonneg_finite y = true -> nonneg_finite z = true ->
  f32_le x y = true -> f32_le y z = true -> f32_le x z = true.
Proof.
  intros Hx Hy Hz.
  destruct x as [sx | sx | | [|] mx ex]; try discriminate;
  destruct y as [sy | sy | | [|] my ey]; try discriminate;
  destruct z as [sz | sz | | [|] mz ez]; try discriminate;
  unfold f32_le, SFleb, SFcompare; try (intros; reflexivity); try (intros; discriminate).
  change (Pos.compare_cont Eq mx my) with (Z.compare (Zpos mx) (Zpos my)).
  change (Pos.compare_cont Eq my mz) with (Z.compare (Zpos my) (Zpos mz)).
  change (Pos.compare_cont Eq mx mz) with (Z.compare (Zpos mx) (Zpos mz)).
  destruct (Z.compare_spec ex ey), (Z.compare_spec ey ez), (Z.compare_spec ex ez);
    try (intros; reflexivity); try (intros; discriminate); try lia;
  destruct (Z.compare_spec (Zpos mx) (Zpos my)), (Z.compare_spec (Zpos my) (Zpos mz)), (Z.compare_spec (Zpos mx) (Zpos mz));
    try (intros; reflexivity); try (intros; discriminate); lia.
Qed.

Lemma f32_le_total (x y : float) :
  nonneg_finite x = true -> nonneg_finite y = true ->
  f32_lt y x = false -> f32_le x y = true.
Proof.
  intros Hx Hy H.
  destruct (f32_le x y) eqn:E; [ reflexivity | ].
  apply f32_le_false_iff in E; try (apply nonneg_finite_not_nan; assumption).
  congruence.
Qed.

Lemma std_min_nonneg (a b : float) :
  nonneg_finite a = true -> nonneg_finite b = true -> nonneg_finite (std_min a b) = true.
Proof. intros. unfold std_min. destruct (f32_lt b a); assumption. Qed.

Lemma std_min_mono (c v1 v2 : float) :
  nonneg_finite c = true -> nonneg_finite v1 = true -> nonneg_finite v2 = true ->
  f32_le v1 v2 = true -> f32_le (std_min c v1) (std_min c v2) = true.
Proof.
  intros Hc H1 H2 H12. unfold std_min.
  destruct (f32_lt v1 c) eqn:E1, (f32_lt v2 c) eqn:E2.
  - exact H12.
  - apply f32_lt_le. exact E1.
  - apply f32_le_trans with v1; try assumption. apply f32_le_total; assumption.
  - apply f32_le_refl. exact Hc.
Qed.

Lemma f32_mul_mono_l (a b z : float) :
  nonneg_finite a = true -> nonneg_finite b = true -> nonneg_finite z = true ->
  f32_le a b = true -> f32_le (a |*| z) (b |*| z) = true.
Proof. exact (SFmul_mono_l a b z). Qed.

Lemma f32_mul_mono_r (c x y : float) :
  nonneg_finite c = true -> nonneg_finite x = true -> nonneg_finite y = true ->
  f32_le x y = true -> f32_le (c |*| x) (c |*| y) = true.
Proof. exact (SFmul_mono_r c x y). Qed.

(** ** The literals are the numbers they stand for *)

Example literals_are_exact :
  f_0_0 = f32_of_int 0 /\ f_1_0 = f32_of_int 1 /\ f_m1_0 = f32_of_int (-1) /\
  f_6_0 = f32_of_int 6 /\ f_10_0 = f32_of_int 10 /\ f_11_0 = f32_of_int 11 /\
  f_0_5 = f32_of_int 1 |/| f32_of_int 2 /\
  f_0_6 = f32_of_int 6 |/| f32_of_int 10 /\
  M_per_NM = f32_of_int 1852.
Proof. repeat split; vm_compute; reflexivity. Qed.

Example lround_halfway_away_from_zero :
  @lround linux_x86_64 (f32_of_int 5 |/| f32_of_int 2) = 3 /\
  @lround linux_x86_64 (f32_of_int (-5) |/| f32_of_int 2) = -3 /\
  @lround linux_x86_64 (f32_of_int 9 |/| f32_of_int 4) = 2 /\
  @lround linux_x86_64 (f32_of_int (-11) |/| f32_of_int 4) = -3 /\
  @int_of_float linux_x86_64 (f32_of_int (-11) |/| f32_of_int 4) = -2.
Proof. repeat split; vm_compute; reflexivity. Qed.

(** ** The projection *)

Lemma mult_matrix_vec_sum (m v : list float) :
  mult_matrix_vec m v = row_times_matrix v m.
Proof. reflexivity. Qed.

Lemma ndc_coords_clip (fs : FrameState) (x y z : float) :
  ndc_coords fs x y z =
  let c := clip_coords fs x y z in
  let invW := f_1_0 |/| c.[3] in
  [ c.[0] |*| invW; c.[1] |*| invW; c.[2] |*| invW; invW ].
Proof.
  unfold ndc_coords, clip_coords. rewrite !mult_matrix_vec_sum. reflexivity.
Qed.

(** [C1] The projection reports [visible = false] exactly when the
    normalised device depth is outside the clip range of the active
    backend, [[0,1]] for the modern one and [[-1,1]] for the legacy one,
    and [visible = true] exactly when the depth is inside it. *)
Theorem C1_visible_iff_depth_in_clip_range
  {rt : CRuntime} (modern : bool) (fs : FrameState) (x y z : float) :
  (visible (ConvertTo2d modern fs x y z) = false <->
     outside_range (clip_lo modern) (clip_hi modern) (ndcZ fs x y z)) /\
  (visible (ConvertTo2d modern fs x y z) = true <->
     f32_le (clip_lo modern) (ndcZ fs x y z) = true /\
     f32_le (ndcZ fs x y z) (clip_hi modern) = true).
Proof.
  assert (Hv : visible (ConvertTo2d modern fs x y z) =
               f32_le (clip_lo modern) (ndcZ fs x y z) &&
               f32_le (ndcZ fs x y z) (clip_hi modern))
    by (unfold ConvertTo2d, ndcZ, clip_lo, clip_hi; cbn [visible];
        generalize (ndc_coords fs x y z); intros n; destruct modern; reflexivity).
  rewrite Hv. unfold outside_range.
  set (v := ndcZ fs x y z). clearbody v.
  split; [ | apply andb_true_iff ].
  rewrite andb_false_iff.
  destruct (is_nan v) eqn:Hnan.
  - destruct v; try discriminate. rewrite f32_le_nan_r. split; auto.
  - assert (Hlo : is_nan (clip_lo modern) = false) by (destruct modern; reflexivity).
    assert (Hhi : is_nan (clip_hi modern) = false) by reflexivity.
    rewrite (f32_le_false_iff _ _ Hlo Hnan), (f32_le_false_iff _ _ Hnan Hhi).
    split; [ auto | intros [H | H]; [ discriminate | exact H ] ].
Qed.

(** [C2], as amended: the pixel coordinates are those of the homogeneous
    vector [(x,y,z,1)] multiplied as a row vector by the world matrix and
    then by the projection matrix ([dst[i]] the sum over [j] of
    [v[j]*m[j*4+i]]), with [x'] and [y'] multiplied by [invW = 1/w'] and
    mapped to [round(size * (ndc*0.5 + 0.5))]. *)
Theorem C2_pixels_by_reciprocal
  {rt : CRuntime} (modern : bool) (fs : FrameState) (x y z : float) :
  (forall m v : list float, mult_matrix_vec m v = row_times_matrix v m) /\
  (out_x (ConvertTo2d modern fs x y z), out_y (ConvertTo2d modern fs x y z)) =
  project_by_reciprocal fs x y z.
Proof.
  split; [ exact mult_matrix_vec_sum | ].
  unfold project_by_reciprocal, pixel, ConvertTo2d. cbn [out_x out_y].
  rewrite ndc_coords_clip. reflexivity.
Qed.

(** [C2], as stated, fails: dividing [x'] by [w'] is not multiplying it
    by the rounded [1/w']. For the point [(-47, 0, 0)], [w' = 160] and a
    window 800 pixels wide the code yields column 282, the division 283. *)
Lemma C2_division_differs :
  out_x (@ConvertTo2d linux_x86_64 true demo_frame (f32_of_int (-47)) f_0_0 f_0_0) = 282 /\
  fst (@project_by_division linux_x86_64 demo_frame (f32_of_int (-47)) f_0_0 f_0_0) = 283 /\
  (out_x (@ConvertTo2d linux_x86_64 true demo_frame (f32_of_int (-47)) f_0_0 f_0_0),
   out_y (@ConvertTo2d linux_x86_64 true demo_frame (f32_of_int (-47)) f_0_0 f_0_0))
  <> @project_by_division linux_x86_64 demo_frame (f32_of_int (-47)) f_0_0 f_0_0.
Proof.
  split; [ vm_compute; reflexivity | ].
  split; [ vm_compute; reflexivity | ].
  vm_compute. discriminate.
Qed.

(** [C9] Two frame states that differ only in the field of view give the
    same projection of every point; the field of view is read into the
    frame state by [read_matrices] all the same. *)
Theorem C9_field_of_view_unused
  {rt : CRuntime} (modern : bool) (fs1 fs2 : FrameState) (x y z : float) :
  gMatrixWrld fs1 = gMatrixWrld fs2 ->
  gMatrixProj fs1 = gMatrixProj fs2 ->
  gScreenW fs1 = gScreenW fs2 ->
  gScreenH fs1 = gScreenH fs2 ->
  ConvertTo2d modern fs1 x y z = ConvertTo2d modern fs2 x y z /\
  (forall (xp : XPlane) (dr : DataRefs),
     gFOV (fst (read_matrices xp dr fs1)) = GetDataf xp (drFieldOfView dr)).
Proof.
  intros Hw Hp HW HH. split; [ | reflexivity ].
  unfold ConvertTo2d, ndc_coords. rewrite Hw, Hp, HW, HH. reflexivity.
Qed.

Lemma C9_field_of_view_unused_witness :
  @ConvertTo2d linux_x86_64 true demo_frame (f32_of_int (-47)) f_0_0 f_0_0 =
  @ConvertTo2d linux_x86_64 true
    {| gMatrixWrld := identity4; gMatrixProj := demo_projection;
       gScreenW := f32_of_int 800; gScreenH := f32_of_int 600;
       gFOV := f32_of_int 90 |}
    (f32_of_int (-47)) f_0_0 f_0_0.
Proof.
  apply (@C9_field_of_view_unused linux_x86_64 true demo_frame
           {| gMatrixWrld := identity4; gMatrixProj := demo_projection;
              gScreenW := f32_of_int 800; gScreenH := f32_of_int 600;
              gFOV := f32_of_int 90 |}); reflexivity.
Defined.

(** ** Computations *)

Lemma bind_returns {A B : Type} (a : A) (k : A -> M B) :
  bind ([], Returns a) k = k a.
Proof. unfold bind. destruct (k a). reflexivity. Qed.

Lemma bind_throws {A B : Type} (w : string) (k : A -> M B) :
  bind ([], Throws w) k = ([], Throws w).
Proof. reflexivity. Qed.

Lemma bind_eval {A B : Type} (o : outcome A) (k : A -> M B) :
  bind (eval o) k = match o with Returns a => k a | Throws w => ([], Throws w) end.
Proof. destruct o; [ apply bind_returns | reflexivity ]. Qed.

Lemma vertLabelOfs_category (ac : Aircraft) :
  vertLabelOfs ac =
  match model_category ac with
  | Returns c => ret (wake_offset c)
  | Throws w => ([], Throws w)
  end.
Proof.
  unfold vertLabelOfs, model_category. rewrite bind_eval.
  destruct (GetModel ac) as [[mdl | ] | w]; try reflexivity.
  rewrite bind_eval. destruct (GetDoc8643 mdl) as [doc | w]; try reflexivity.
  unfold wake_offset.
  destruct (Ascii.eqb (char0 (wtc doc)) "L"); [ reflexivity | ].
  destruct (Ascii.eqb (char0 (wtc doc)) "H"); reflexivity.
Qed.

Lemma DrawTranslucentBox_calls (left top right bottom r g b a : float) :
  DrawTranslucentBox left top right bottom r g b a =
  (quad_calls left top right bottom (r, g, b, a), Returns tt).
Proof. reflexivity. Qed.

(** ** [int] arithmetic without overflow *)

Lemma wrap_int_id (z : Z) : in_int_range z = true -> wrap_int z = z.
Proof.
  unfold in_int_range, wrap_int, INT_MIN, INT_MAX.
  rewrite andb_true_iff, !Z.leb_le.
  change (2 ^ 31) with 2147483648. change (2 ^ 32) with 4294967296.
  intros [H1 H2]. rewrite Z.mod_small by lia. lia.
Qed.

Lemma wrap_int_range (z : Z) : in_int_range (wrap_int z) = true.
Proof.
  unfold in_int_range, wrap_int, INT_MIN, INT_MAX.
  rewrite andb_true_iff, !Z.leb_le.
  change (2 ^ 31) with 2147483648. change (2 ^ 32) with 4294967296.
  pose proof (Z.mod_pos_bound (z + 2147483648) 4294967296 ltac:(lia)). lia.
Qed.

Lemma int_of_float_range {rt : CRuntime} (v : float) :
  in_int_range (int_of_float v) = true.
Proof.
  unfold int_of_float.
  destruct (truncate v) as [r | ]; [ | apply wrap_int_range ].
  destruct (in_int_range r) eqn:E; [ exact E | apply wrap_int_range ].
Qed.

Lemma int_div_2 (z : Z) : in_int_range z = true -> int_div z 2 = Z.quot z 2.
Proof.
  intros H. unfold int_div. apply wrap_int_id.
  revert H. unfold in_int_range, INT_MIN, INT_MAX.
  rewrite !andb_true_iff, !Z.leb_le.
  change (2 ^ 31) with 2147483648.
  intros [H1 H2].
  pose proof (Z.quot_rem' z 2) as Hq.
  destruct (Z.le_gt_cases 0 z) as [Hz | Hz].
  - pose proof (Z.rem_bound_pos z 2 Hz ltac:(lia)). lia.
  - pose proof (Z.rem_bound_pos_neg z 2 ltac:(lia) ltac:(lia)). lia.
Qed.

(** ** The label pass *)

Section LabelPassFacts.
Context {rt : CRuntime}.

Lemma draw_label_calls (xp : XPlane) (ac : Aircraft) (x y : Z) :
  draw_label xp ac x y =
  (let labelWidth := int_of_float (xp_measure xp (label ac)) in
   let subLabelWidth := int_of_float (xp_measure xp (subLabel ac)) in
   let boxWidth := if subLabelWidth >? labelWidth then subLabelWidth else labelWidth in
   let boxXStart := int_sub x (int_div boxWidth 2) in
   [ XPLMMeasureString (label ac) (String.length (label ac));
     XPLMMeasureString (subLabel ac) (String.length (subLabel ac)) ]
   ++ quad_calls (f32_of_int (int_sub boxXStart 5))
                 (f32_of_int (int_add y 15))
                 (f32_of_int (int_add (int_add boxXStart boxWidth) 5))
                 (f32_of_int (int_sub y 10))
                 (colBackground ac)
   ++ [ XPLMDrawString (colLabel ac)
          (int_add boxXStart (int_div (int_sub boxWidth labelWidth) 2)) y (label ac) ]
   ++ (if string_empty (subLabel ac) then []
       else [ XPLMDrawString gray
                (int_add boxXStart (int_div (int_sub boxWidth subLabelWidth) 2))
                (int_sub y 25) (subLabel ac) ]),
   Returns tt).
Proof.
  unfold draw_label.
  destruct (colBackground ac) as [[[r g] b] a].
  destruct (string_empty (subLabel ac)); reflexivity.
Qed.

Lemma draw_label_draws (xp : XPlane) (ac : Aircraft) (x y : Z) :
  draws (fst (draw_label xp ac x y)) = true /\ snd (draw_label xp ac x y) = Returns tt.
Proof.
  rewrite draw_label_calls. cbv zeta. cbn [fst snd]. split; [ | reflexivity ].
  destruct (colBackground ac) as [[[r g] b] a]. reflexivity.
Qed.

(** The loop body either makes no call at all, or reads a category and
    draws the label at the projection of the raised position. *)
Lemma label_aircraft_cases (glob : GlobVars) (xp : XPlane) (fs : FrameState)
  (dist : float) (ac : Aircraft) :
  (exists r, label_aircraft glob xp fs dist ac = ([], r)) \/
  (exists c, model_category ac = Returns c /\
     let p := ConvertTo2d (UsingModernGraphicsDriver glob) fs
                (drawInfo_x ac) (drawInfo_y ac |+| wake_offset c) (drawInfo_z ac) in
     visible p = true /\
     label_aircraft glob xp fs dist ac = draw_label xp ac (out_x p) (out_y p)).
Proof.
  unfold label_aircraft. rewrite bind_eval.
  destruct (IsRendered ac) as [[ | ] | w]; cbn [negb]; try (left; eexists; reflexivity).
  rewrite bind_eval.
  destruct (ShallDrawLabel ac) as [s | w]; try (left; eexists; reflexivity).
  destruct (negb (s || SwitchCfg_eqb (eLabelOverride glob) SWITCH_CFG_ON));
    try (left; eexists; reflexivity).
  rewrite bind_eval.
  destruct (GetCameraDist ac) as [d | w]; try (left; eexists; reflexivity).
  destruct (f32_lt dist d); try (left; eexists; reflexivity).
  rewrite vertLabelOfs_category.
  destruct (model_category ac) as [c | w]; try (left; eexists; reflexivity).
  unfold ret. rewrite bind_returns.
  destruct (visible (ConvertTo2d (UsingModernGraphicsDriver glob) fs (drawInfo_x ac)
                       (drawInfo_y ac |+| wake_offset c) (drawInfo_z ac))) eqn:Hv;
    cbn [negb].
  - right. exists c. split; [ reflexivity | ]. cbv zeta. split; [ exact Hv | reflexivity ].
  - left. eexists. reflexivity.
Qed.

(** An aircraft that passes the three checks is projected at its position
    raised by the offset of its category. *)
Lemma label_aircraft_checked (glob : GlobVars) (xp : XPlane) (fs : FrameState)
  (dist : float) (ac : Aircraft) (s : bool) (d : float) (c : option ascii) :
  IsRendered ac = Returns true ->
  ShallDrawLabel ac = Returns s ->
  s || SwitchCfg_eqb (eLabelOverride glob) SWITCH_CFG_ON = true ->
  GetCameraDist ac = Returns d ->
  f32_lt dist d = false ->
  model_category ac = Returns c ->
  label_aircraft glob xp fs dist ac = project_and_draw glob xp fs ac (wake_offset c).
Proof.
  intros Hr Hs Hso Hd Hlt Hc.
  unfold label_aircraft, project_and_draw.
  rewrite Hr, bind_eval. cbn [negb].
  rewrite Hs, bind_eval, Hso. cbn [negb].
  rewrite Hd, bind_eval, Hlt.
  rewrite vertLabelOfs_category, Hc. unfold ret. rewrite bind_returns.
  destruct (visible _); reflexivity.
Qed.

(** A loop body that throws has made no call. *)
Lemma label_aircraft_throws (glob : GlobVars) (xp : XPlane) (fs : FrameState)
  (dist : float) (ac : Aircraft) (t : list HostCall) (w : string) :
  label_aircraft glob xp fs dist ac = (t, Throws w) -> t = [].
Proof.
  intros H.
  destruct (label_aircraft_cases glob xp fs dist ac) as [[r E] | (c & _ & _ & E)];
    rewrite E in H.
  - congruence.
  - pose proof (draw_label_draws xp ac
      (out_x (ConvertTo2d (UsingModernGraphicsDriver glob) fs (drawInfo_x ac)
                (drawInfo_y ac |+| wake_offset c) (drawInfo_z ac)))
      (out_y (ConvertTo2d (UsingModernGraphicsDriver glob) fs (drawInfo_x ac)
                (drawInfo_y ac |+| wake_offset c) (drawInfo_z ac)))) as [_ Hs].
    rewrite H in Hs. discriminate.
Qed.

Lemma flat_map_nil {A B : Type} (l : list A) : flat_map (fun _ : A => @nil B) l = [].
Proof. induction l; [ reflexivity | assumption ]. Qed.

(** The calls of a pass: those of the set-up, then those for each entry
    of [mapAc] in order. *)
Lemma TwoDDrawLabels_calls (glob : GlobVars) (xp : XPlane) (dr : DataRefs) (fs : FrameState) :
  snd (TwoDDrawLabels glob xp dr fs) =
  setup_calls glob xp dr fs ++ flat_map (calls_for glob xp dr fs) (mapAc glob).
Proof.
  unfold TwoDDrawLabels, setup_calls, calls_for.
  fold (pass_disabled glob).
  destruct (pass_disabled glob).
  - rewrite flat_map_nil. reflexivity.
  - destruct (pass_setup glob xp dr fs) as [[fs' dist] t]. reflexivity.
Qed.

Lemma pass_setup_calls_nonempty (glob : GlobVars) (xp : XPlane) (dr : DataRefs)
  (fs : FrameState) :
  snd (pass_setup glob xp dr fs) <> [].
Proof.
  unfold pass_setup, read_matrices.
  destruct (effectiveVisibility glob xp dr) as [v t2]. cbn [snd app]. discriminate.
Qed.

End LabelPassFacts.

(** A pass over three aircraft: the first is drawn, the second throws,
    the third has its label flag off. *)
Example demo_pass :
  @TwoDDrawLabels linux_x86_64
     (demo_glob true SWITCH_CFG_AUTO
        [ (1, demo_aircraft true "L"); (2, broken_aircraft); (3, demo_aircraft false "H") ])
     demo_xplane demo_datarefs demo_frame =
  (demo_frame,
   [ XPLMGetDatavf (Some "sim/graphics/view/world_matrix"%string) 0 16;
     XPLMGetDatavf (Some "sim/graphics/view/projection_matrix_3d"%string) 0 16;
     XPLMGetDatai (Some "sim/graphics/view/window_width"%string);
     XPLMGetDatai (Some "sim/graphics/view/window_height"%string);
     XPLMGetDataf (Some "sim/graphics/view/field_of_view_deg"%string);
     XPLMReadCameraPosition;
     XPLMGetDataf (Some "sim/graphics/view/visibility_effective_m"%string);
     XPLMMeasureString "N123" 4;
     XPLMMeasureString "B738 LH" 7 ]
   ++ quad_calls (f32_of_int 242) (f32_of_int 326) (f32_of_int 322) (f32_of_int 301) shade
   ++ [ XPLMDrawString white 262 311 "N123";
        XPLMDrawString gray 247 286 "B738 LH";
        LogAcException 2 "corrupt model record" ]).
Proof. vm_compute. reflexivity. Qed.

(** The override of the configuration file acts on the global flag when
    the API is called: FORCE_ON sets it, FORCE_OFF clears it. *)
Lemma XPMPEnableAircraftLabels_override (glob : GlobVars) (_enable : bool) :
  bDrawLabels (fst (XPMPEnableAircraftLabels glob _enable)) =
  match eLabelOverride glob with
  | SWITCH_CFG_ON => true
  | SWITCH_CFG_OFF => false
  | SWITCH_CFG_AUTO => _enable
  end.
Proof.
  unfold XPMPEnableAircraftLabels.
  destruct (eLabelOverride glob), (bDrawLabels glob) eqn:E, _enable;
    cbn [Bool.eqb fst set_bDrawLabels bDrawLabels]; try reflexivity; exact E.
Qed.

Lemma pass_disabled_iff (glob : GlobVars) :
  pass_disabled glob = true <->
  bDrawLabels glob = false \/ eLabelOverride glob = SWITCH_CFG_OFF.
Proof.
  unfold pass_disabled. rewrite orb_true_iff, negb_true_iff.
  destruct (eLabelOverride glob); cbn [SwitchCfg_eqb];
    split; intros [H | H]; try discriminate; auto.
Qed.

(** [C3], as amended: the label pass does no work at all (no refresh of
    the frame state, no aircraft visited, no host call) if and only if
    global label drawing is disabled or the override mode is FORCE_OFF. *)
Theorem C3_pass_idle_iff_disabled_or_forced_off
  {rt : CRuntime} (glob : GlobVars) (xp : XPlane) (dr : DataRefs) (fs : FrameState) :
  (snd (TwoDDrawLabels glob xp dr fs) = [] <->
     bDrawLabels glob = false \/ eLabelOverride glob = SWITCH_CFG_OFF) /\
  (TwoDDrawLabels glob xp dr fs = (fs, []) <->
     bDrawLabels glob = false \/ eLabelOverride glob = SWITCH_CFG_OFF).
Proof.
  rewrite <- pass_disabled_iff.
  pose proof (pass_setup_calls_nonempty glob xp dr fs) as Hne.
  unfold TwoDDrawLabels. fold (pass_disabled glob).
  destruct (pass_disabled glob).
  - split; split; reflexivity.
  - destruct (pass_setup glob xp dr fs) as [[fs' dist] t]. cbn [snd] in *.
    split; split; intros H; try discriminate.
    + apply app_eq_nil in H. destruct H as [H _]. contradiction.
    + injection H as _ H. apply app_eq_nil in H. destruct H as [H _]. contradiction.
Qed.

(** [C3], as stated, fails. With global drawing off and the override at
    FORCE_ON the pass does no work, although the claim has it run; with
    global drawing on and the override at FORCE_OFF the pass does no work
    either, although the claim's condition does not hold. *)
Lemma C3_pass_idle_outside_claimed_condition :
  @TwoDDrawLabels linux_x86_64 (demo_glob false SWITCH_CFG_ON [(1, demo_aircraft true "L")])
     demo_xplane demo_datarefs demo_frame = (demo_frame, []) /\
  @TwoDDrawLabels linux_x86_64 (demo_glob true SWITCH_CFG_OFF [(1, demo_aircraft true "L")])
     demo_xplane demo_datarefs demo_frame = (demo_frame, []) /\
  ~ (snd (@TwoDDrawLabels linux_x86_64
             (demo_glob false SWITCH_CFG_ON [(1, demo_aircraft true "L")])
             demo_xplane demo_datarefs demo_frame) = [] <->
     bDrawLabels (demo_glob false SWITCH_CFG_ON [(1, demo_aircraft true "L")]) = false /\
     eLabelOverride (demo_glob false SWITCH_CFG_ON [(1, demo_aircraft true "L")])
       <> SWITCH_CFG_ON) /\
  ~ (snd (@TwoDDrawLabels linux_x86_64
             (demo_glob true SWITCH_CFG_OFF [(1, demo_aircraft true "L")])
             demo_xplane demo_datarefs demo_frame) = [] <->
     bDrawLabels (demo_glob true SWITCH_CFG_OFF [(1, demo_aircraft true "L")]) = false /\
     eLabelOverride (demo_glob true SWITCH_CFG_OFF [(1, demo_aircraft true "L")])
       <> SWITCH_CFG_ON).
Proof.
  split; [ reflexivity | ]. split; [ reflexivity | ]. split.
  - intros [H _]. destruct (H eq_refl) as [_ Hne]. apply Hne. reflexivity.
  - intros [H _]. destruct (H eq_refl) as [Hoff _]. discriminate Hoff.
Qed.

(** [C5] For an aircraft that passes the checks of the pass, the offset
    added to its world-space [y] before the projection is 6.0 when its
    wake-turbulence category is ['L'], 11.0 when it is ['H'], and 10.0 for
    every other code and when the aircraft has no model record. *)
Theorem C5_vertical_offset_by_wake_category
  {rt : CRuntime} (glob : GlobVars) (xp : XPlane) (fs : FrameState) (dist : float)
  (ac : Aircraft) (s : bool) (d : float) (c : option ascii) :
  IsRendered ac = Returns true ->
  ShallDrawLabel ac = Returns s ->
  s || SwitchCfg_eqb (eLabelOverride glob) SWITCH_CFG_ON = true ->
  GetCameraDist ac = Returns d ->
  f32_lt dist d = false ->
  model_category ac = Returns c ->
  vertLabelOfs ac = ret (wake_offset c) /\
  label_aircraft glob xp fs dist ac = project_and_draw glob xp fs ac (wake_offset c) /\
  wake_offset (Some "L"%char) = f32_of_int 6 /\
  wake_offset (Some "H"%char) = f32_of_int 11 /\
  (forall k : ascii, k <> "L"%char -> k <> "H"%char -> wake_offset (Some k) = f32_of_int 10) /\
  wake_offset None = f32_of_int 10.
Proof.
  intros Hr Hs Hso Hd Hlt Hc.
  split; [ rewrite vertLabelOfs_category, Hc; reflexivity | ].
  split; [ eapply label_aircraft_checked; eassumption | ].
  repeat split.
  intros k HL HH. unfold wake_offset.
  destruct (Ascii.eqb_spec k "L"); [ contradiction | ].
  destruct (Ascii.eqb_spec k "H"); [ contradiction | ]. reflexivity.
Qed.

Lemma C5_vertical_offset_by_wake_category_witness :
  @label_aircraft linux_x86_64 (demo_glob true SWITCH_CFG_AUTO []) demo_xplane demo_frame
     (f32_of_int 9260) (demo_aircraft true "H") =
  @project_and_draw linux_x86_64 (demo_glob true SWITCH_CFG_AUTO []) demo_xplane demo_frame
     (demo_aircraft true "H") (wake_offset (Some "H"%char)).
Proof.
  exact (proj1 (proj2
    (@C5_vertical_offset_by_wake_category linux_x86_64
       (demo_glob true SWITCH_CFG_AUTO []) demo_xplane demo_frame (f32_of_int 9260)
       (demo_aircraft true "H") true (f32_of_int 3000) (Some "H"%char)
       eq_refl eq_refl eq_refl eq_refl eq_refl eq_refl))).
Defined.

Lemma catch_ac_draw_label {rt : CRuntime} (id : Z) (xp : XPlane) (ac : Aircraft) (x y : Z) :
  catch_ac id (draw_label xp ac x y) = fst (draw_label xp ac x y).
Proof.
  destruct (draw_label_draws xp ac x y) as [_ Hs].
  destruct (draw_label xp ac x y) as [t r]. cbn [snd fst] in *. subst r. reflexivity.
Qed.

(** [C6], as amended: for an aircraft whose own label flag is off, the
    pass emits no draw call when the override mode is AUTO; when the
    override mode is FORCE_ON and global label drawing is enabled, the pass
    emits draw calls for it provided it is rendered, not farther than the
    maximum label distance, and its raised position projects as visible. *)
Theorem C6_label_flag_off
  {rt : CRuntime} (glob : GlobVars) (xp : XPlane) (dr : DataRefs) (fs : FrameState)
  (id : Z) (ac : Aircraft) :
  ShallDrawLabel ac = Returns false ->
  (eLabelOverride glob = SWITCH_CFG_AUTO ->
   draws (calls_for glob xp dr fs (id, ac)) = false) /\
  (forall (d : float) (c : option ascii),
   eLabelOverride glob = SWITCH_CFG_ON ->
   bDrawLabels glob = true ->
   IsRendered ac = Returns true ->
   GetCameraDist ac = Returns d ->
   f32_lt (snd (fst (pass_setup glob xp dr fs))) d = false ->
   model_category ac = Returns c ->
   visible (ConvertTo2d (UsingModernGraphicsDriver glob) (fst (fst (pass_setup glob xp dr fs)))
              (drawInfo_x ac) (drawInfo_y ac |+| wake_offset c) (drawInfo_z ac)) = true ->
   draws (calls_for glob xp dr fs (id, ac)) = true).
Proof.
  intros Hflag. split.
  - intros Hauto. unfold calls_for.
    destruct (pass_disabled glob); [ reflexivity | ].
    unfold loop_turn, label_aircraft. cbn [fst snd].
    rewrite bind_eval.
    destruct (IsRendered ac) as [[ | ] | w]; cbn [negb]; try reflexivity.
    rewrite Hflag, bind_eval, Hauto. reflexivity.
  - intros d c Hon Hen Hr Hd Hlt Hc Hv. unfold calls_for, pass_disabled.
    rewrite Hen, Hon. cbn [negb orb SwitchCfg_eqb].
    unfold loop_turn. cbn [fst snd].
    rewrite (label_aircraft_checked glob xp _ _ ac false d c Hr Hflag
               ltac:(rewrite Hon; reflexivity) Hd Hlt Hc).
    unfold project_and_draw. rewrite Hv.
    rewrite catch_ac_draw_label. apply draw_label_draws.
Qed.

Lemma C6_label_flag_off_witness :
  draws (@calls_for linux_x86_64 (demo_glob true SWITCH_CFG_AUTO []) demo_xplane
           demo_datarefs demo_frame (7, demo_aircraft false "L")) = false /\
  draws (@calls_for linux_x86_64 (demo_glob true SWITCH_CFG_ON []) demo_xplane
           demo_datarefs demo_frame (7, demo_aircraft false "L")) = true.
Proof.
  split.
  - exact (proj1 (@C6_label_flag_off linux_x86_64 (demo_glob true SWITCH_CFG_AUTO [])
                    demo_xplane demo_datarefs demo_frame 7 (demo_aircraft false "L") eq_refl)
                 eq_refl).
  - refine (proj2 (@C6_label_flag_off linux_x86_64 (demo_glob true SWITCH_CFG_ON [])
                     demo_xplane demo_datarefs demo_frame 7 (demo_aircraft false "L") eq_refl)
                  (f32_of_int 3000) (Some "L"%char) eq_refl eq_refl eq_refl eq_refl _ eq_refl _);
      vm_compute; reflexivity.
Defined.

(** [C6], as stated, fails. Under FORCE_ON an aircraft with its label
    flag off gets no draw call when it is not rendered; and one that is
    rendered, near and in view gets none when global label drawing is off
    (the whole pass makes no call), while it is drawn once global drawing
    is on. *)
Lemma C6_forced_on_without_draw_call :
  ShallDrawLabel unrendered_aircraft = Returns false /\
  draws (snd (@TwoDDrawLabels linux_x86_64
                (demo_glob true SWITCH_CFG_ON [(7, unrendered_aircraft)])
                demo_xplane demo_datarefs demo_frame)) = false /\
  ShallDrawLabel (demo_aircraft false "L") = Returns false /\
  draws (snd (@TwoDDrawLabels linux_x86_64
                (demo_glob false SWITCH_CFG_ON [(7, demo_aircraft false "L")])
                demo_xplane demo_datarefs demo_frame)) = false /\
  draws (snd (@TwoDDrawLabels linux_x86_64
                (demo_glob true SWITCH_CFG_ON [(7, demo_aircraft false "L")])
                demo_xplane demo_datarefs demo_frame)) = true.
Proof. repeat split; vm_compute; reflexivity. Qed.

(** [C7] When the processing of one aircraft throws, the failure is
    caught and logged with the identity of the aircraft, no draw call is
    made for that aircraft, and the pass goes on: its calls are those of
    the same pass without that aircraft, with the log line in its place. *)
Theorem C7_failure_is_isolated
  {rt : CRuntime} (glob : GlobVars) (xp : XPlane) (dr : DataRefs) (fs : FrameState)
  (l1 l2 : list (Z * Aircraft)) (id : Z) (ac : Aircraft) (t : list HostCall) (w : string) :
  pass_disabled glob = false ->
  label_aircraft glob xp (fst (fst (pass_setup glob xp dr fs)))
    (snd (fst (pass_setup glob xp dr fs))) ac = (t, Throws w) ->
  calls_for glob xp dr fs (id, ac) = [LogAcException id w] /\
  draws (calls_for glob xp dr fs (id, ac)) = false /\
  snd (TwoDDrawLabels (set_mapAc glob (l1 ++ (id, ac) :: l2)) xp dr fs) =
    setup_calls glob xp dr fs
    ++ flat_map (calls_for glob xp dr fs) l1
    ++ [LogAcException id w]
    ++ flat_map (calls_for glob xp dr fs) l2 /\
  snd (TwoDDrawLabels (set_mapAc glob (l1 ++ l2)) xp dr fs) =
    setup_calls glob xp dr fs
    ++ flat_map (calls_for glob xp dr fs) l1
    ++ flat_map (calls_for glob xp dr fs) l2.
Proof.
  intros Hen Hthrow.
  assert (Hcalls : calls_for glob xp dr fs (id, ac) = [LogAcException id w]).
  { unfold calls_for. rewrite Hen. unfold loop_turn. cbn [fst snd].
    rewrite Hthrow. rewrite (label_aircraft_throws _ _ _ _ _ _ _ Hthrow). reflexivity. }
  split; [ exact Hcalls | ].
  split; [ rewrite Hcalls; reflexivity | ].
  split.
  - rewrite TwoDDrawLabels_calls.
    change (setup_calls (set_mapAc glob (l1 ++ (id, ac) :: l2)) xp dr fs)
      with (setup_calls glob xp dr fs).
    change (calls_for (set_mapAc glob (l1 ++ (id, ac) :: l2)) xp dr fs)
      with (calls_for glob xp dr fs).
    cbn [mapAc set_mapAc].
    rewrite flat_map_app. cbn [flat_map]. rewrite Hcalls. reflexivity.
  - rewrite TwoDDrawLabels_calls.
    change (setup_calls (set_mapAc glob (l1 ++ l2)) xp dr fs)
      with (setup_calls glob xp dr fs).
    change (calls_for (set_mapAc glob (l1 ++ l2)) xp dr fs)
      with (calls_for glob xp dr fs).
    cbn [mapAc set_mapAc].
    rewrite flat_map_app. reflexivity.
Qed.

Lemma C7_failure_is_isolated_witness :
  snd (@TwoDDrawLabels linux_x86_64
         (set_mapAc (demo_glob true SWITCH_CFG_AUTO [])
            ([(1, demo_aircraft true "L")] ++ (2, broken_aircraft) :: [(3, demo_aircraft true "H")]))
         demo_xplane demo_datarefs demo_frame) =
  setup_calls (demo_glob true SWITCH_CFG_AUTO []) demo_xplane demo_datarefs demo_frame
  ++ flat_map (@calls_for linux_x86_64 (demo_glob true SWITCH_CFG_AUTO []) demo_xplane
                 demo_datarefs demo_frame) [(1, demo_aircraft true "L")]
  ++ [LogAcException 2 "corrupt model record"]
  ++ flat_map (@calls_for linux_x86_64 (demo_glob true SWITCH_CFG_AUTO []) demo_xplane
                 demo_datarefs demo_frame) [(3, demo_aircraft true "H")].
Proof.
  exact (proj1 (proj2 (proj2
    (@C7_failure_is_isolated linux_x86_64 (demo_glob true SWITCH_CFG_AUTO []) demo_xplane
       demo_datarefs demo_frame [(1, demo_aircraft true "L")] [(3, demo_aircraft true "H")]
       2 broken_aircraft [] "corrupt model record" eq_refl eq_refl)))).
Defined.

Lemma gtb_max (a b : Z) : (if b >? a then b else a) = Z.max a b.
Proof. destruct (Z.gtb_spec b a); lia. Qed.

(** [C8] For every drawn label (at the projected pixel [(x, y)], with no
    overflow of [int]): the box is as wide as the wider of the two
    measured texts, it is centred at [x] ([boxLeft = x - boxWidth/2], the
    division being that of [int]), and the translucent quad spans from
    [(boxLeft-5, y+15)] to [(boxLeft+boxWidth+5, y-10)] in the background
    colour of the aircraft; with widths 40 and 70 the quad is 80 wide. *)
Theorem C8_background_box_geometry
  {rt : CRuntime} (xp : XPlane) (ac : Aircraft) (x y : Z) :
  let labelWidth := int_of_float (xp_measure xp (label ac)) in
  let subLabelWidth := int_of_float (xp_measure xp (subLabel ac)) in
  let boxWidth := Z.max labelWidth subLabelWidth in
  let boxLeft := x - Z.quot boxWidth 2 in
  in_int_range boxLeft = true ->
  in_int_range (boxLeft - 5) = true ->
  in_int_range (boxLeft + boxWidth) = true ->
  in_int_range (boxLeft + boxWidth + 5) = true ->
  in_int_range (y + 15) = true ->
  in_int_range (y - 10) = true ->
  (exists rest : list HostCall,
     fst (draw_label xp ac x y) =
     [ XPLMMeasureString (label ac) (String.length (label ac));
       XPLMMeasureString (subLabel ac) (String.length (subLabel ac)) ]
     ++ quad_calls (f32_of_int (boxLeft - 5)) (f32_of_int (y + 15))
                   (f32_of_int (boxLeft + boxWidth + 5)) (f32_of_int (y - 10))
                   (colBackground ac)
     ++ rest) /\
  (labelWidth = 40 -> subLabelWidth = 70 ->
   boxWidth = 70 /\ (boxLeft + boxWidth + 5) - (boxLeft - 5) = 80).
Proof.
  intros labelWidth subLabelWidth boxWidth boxLeft H1 H2 H3 H4 H5 H6.
  split; [ | intros E1 E2; unfold boxWidth; rewrite E1, E2; split; [ reflexivity | lia ] ].
  rewrite draw_label_calls. cbv zeta. cbn [fst].
  fold labelWidth. fold subLabelWidth. rewrite gtb_max. fold boxWidth.
  assert (Hbw : in_int_range boxWidth = true).
  { unfold boxWidth. destruct (Z.max_spec labelWidth subLabelWidth) as [[_ ->] | [_ ->]];
      apply int_of_float_range. }
  rewrite (int_div_2 boxWidth Hbw).
  replace (int_sub x (Z.quot boxWidth 2)) with boxLeft
    by (symmetry; apply wrap_int_id; exact H1).
  replace (int_sub boxLeft 5) with (boxLeft - 5)
    by (symmetry; apply wrap_int_id; exact H2).
  replace (int_add y 15) with (y + 15) by (symmetry; apply wrap_int_id; exact H5).
  replace (int_add boxLeft boxWidth) with (boxLeft + boxWidth)
    by (symmetry; apply wrap_int_id; exact H3).
  replace (int_add (boxLeft + boxWidth) 5) with (boxLeft + boxWidth + 5)
    by (symmetry; apply wrap_int_id; exact H4).
  replace (int_sub y 10) with (y - 10) by (symmetry; apply wrap_int_id; exact H6).
  eexists. reflexivity.
Qed.

Lemma C8_background_box_geometry_witness :
  exists rest : list HostCall,
    fst (@draw_label linux_x86_64 demo_xplane (demo_aircraft true "L") 282 311) =
    [ XPLMMeasureString "N123" 4; XPLMMeasureString "B738 LH" 7 ]
    ++ quad_calls (f32_of_int 242) (f32_of_int 326) (f32_of_int 322) (f32_of_int 301) shade
    ++ rest.
Proof.
  exact (proj1 (@C8_background_box_geometry linux_x86_64 demo_xplane
                  (demo_aircraft true "L") 282 311
                  eq_refl eq_refl eq_refl eq_refl eq_refl eq_refl)).
Defined.

(** ** The maximum label distance *)

Lemma pass_setup_distance (glob : GlobVars) (xp : XPlane) (dr : DataRefs) (fs : FrameState) :
  snd (fst (pass_setup glob xp dr fs)) =
  labelDistance (maxLabelDist glob) (fst (effectiveVisibility glob xp dr)) (xp_camera_zoom xp).
Proof.
  unfold pass_setup, read_matrices.
  destruct (effectiveVisibility glob xp dr) as [v t2]. reflexivity.
Qed.

(** [C4] With the other inputs fixed (distances and zoom being zero or
    positive finite numbers), the maximum label distance
    [min(configured, effectiveVisibility) * zoom] does not decrease when
    the zoom grows and does not increase when the effective visibility
    shrinks; this is the distance the pass computes. *)
Theorem C4_label_distance_monotone (configured vis vis' zoom zoom' : float) :
  nonneg_finite configured = true ->
  nonneg_finite vis = true -> nonneg_finite vis' = true ->
  nonneg_finite zoom = true -> nonneg_finite zoom' = true ->
  (f32_le zoom zoom' = true ->
   f32_le (labelDistance configured vis zoom) (labelDistance configured vis zoom') = true) /\
  (f32_le vis' vis = true ->
   f32_le (labelDistance configured vis' zoom) (labelDistance configured vis zoom) = true) /\
  (forall (glob : GlobVars) (xp : XPlane) (dr : DataRefs) (fs : FrameState),
   snd (fst (pass_setup glob xp dr fs)) =
   labelDistance (maxLabelDist glob) (fst (effectiveVisibility glob xp dr))
     (xp_camera_zoom xp)).
Proof.
  intros Hc Hv Hv' Hz Hz'. unfold labelDistance.
  split; [ | split ].
  - intros Hle. apply f32_mul_mono_r; try assumption.
    apply std_min_nonneg; assumption.
  - intros Hle. apply f32_mul_mono_l; try assumption;
      try (apply std_min_nonneg; assumption).
    apply std_min_mono; assumption.
  - exact pass_setup_distance.
Qed.

Lemma C4_label_distance_monotone_witness :
  f32_le (labelDistance (f32_of_int 9260) (f32_of_int 20000) (f32_of_int 1))
         (labelDistance (f32_of_int 9260) (f32_of_int 20000) (f32_of_int 2)) = true /\
  f32_le (labelDistance (f32_of_int 9260) (f32_of_int 5000) (f32_of_int 1))
         (labelDistance (f32_of_int 9260) (f32_of_int 20000) (f32_of_int 1)) = true.
Proof.
  pose proof (C4_label_distance_monotone (f32_of_int 9260) (f32_of_int 20000)
                (f32_of_int 5000) (f32_of_int 1) (f32_of_int 2)
                eq_refl eq_refl eq_refl eq_refl eq_refl) as [Hzoom [Hvis _]].
  split; [ exact (Hzoom eq_refl) | exact (Hvis eq_refl) ].
Defined.

Lemma f32_le_refl_number (x : float) : is_nan x = false -> f32_le x x = true.
Proof.
  destruct x as [s | s | | s m e]; intros H; try discriminate;
    unfold f32_le, SFleb, SFcompare; try (destruct s; reflexivity).
  rewrite Z.compare_refl.
  change (Pos.compare_cont Eq m m) with (Pos.compare m m). rewrite Pos.compare_refl.
  destruct s; reflexivity.
Qed.

(** [std::max] of two numbers is one of them and not below either. *)
Lemma std_max_is_max (a b : float) :
  is_nan a = false -> is_nan b = false ->
  (std_max a b = a \/ std_max a b = b) /\
  f32_le a (std_max a b) = true /\ f32_le b (std_max a b) = true.
Proof.
  intros Ha Hb. unfold std_max.
  destruct (f32_lt a b) eqn:E.
  - split; [ now right | ]. split; [ apply f32_lt_le; exact E | apply f32_le_refl_number; exact Hb ].
  - split; [ now left | ]. split; [ apply f32_le_refl_number; exact Ha | ].
    destruct (f32_le b a) eqn:E'; [ reflexivity | ].
    apply f32_le_false_iff in E'; try assumption. congruence.
Qed.

(** [C10], amended. Whatever number is passed as distance (zero,
    negative and infinite ones included, NaN excluded),
    [XPMPSetAircraftLabelDist] stores [max(input, 1.0)] nautical miles
    converted to metres: the stored maximum label distance is at least
    1852 m, and an input below one nautical mile is clamped to it. *)
Theorem C10_label_distance_at_least_one_mile
  (glob : GlobVars) (_dist_nm : float) (_bCutOffAtVisibility : bool) :
  is_binary32 _dist_nm = true ->
  is_nan _dist_nm = false ->
  let stored := maxLabelDist (XPMPSetAircraftLabelDist glob _dist_nm _bCutOffAtVisibility) in
  stored = std_max _dist_nm f_1_0 |*| M_per_NM /\
  (std_max _dist_nm f_1_0 = _dist_nm \/ std_max _dist_nm f_1_0 = f_1_0) /\
  f32_le _dist_nm (std_max _dist_nm f_1_0) = true /\
  f32_le f_1_0 (std_max _dist_nm f_1_0) = true /\
  f32_le (f32_of_int 1852) stored = true /\
  (f32_lt _dist_nm f_1_0 = true -> stored = f32_of_int 1852).
Proof.
  intros Hvalid Hnan stored.
  destruct (std_max_is_max _dist_nm f_1_0 Hnan eq_refl) as (Hcase & Hge & Hge1).
  split; [ reflexivity | ].
  split; [ exact Hcase | ]. split; [ exact Hge | ]. split; [ exact Hge1 | ].
  assert (Hone : f_1_0 |*| M_per_NM = f32_of_int 1852) by (vm_compute; reflexivity).
  unfold stored. cbn [XPMPSetAircraftLabelDist maxLabelDist].
  split.
  - replace (f32_of_int 1852) with (f_1_0 |*| M_per_NM) by exact Hone.
    destruct Hcase as [E | E]; rewrite E.
    + rewrite E in Hge1.
      destruct _dist_nm as [s | [ | ] | | [ | ] m e]; try discriminate.
      * reflexivity.
      * apply f32_mul_mono_l; try reflexivity; try assumption.
    + vm_compute. reflexivity.
  - intros Hlt. unfold std_max. rewrite Hlt. exact Hone.
Qed.

Lemma C10_label_distance_at_least_one_mile_witness :
  maxLabelDist (XPMPSetAircraftLabelDist (demo_glob true SWITCH_CFG_AUTO [])
                  (f32_of_int (-3)) true) = f32_of_int 1852 /\
  f32_le (f32_of_int 1852)
         (maxLabelDist (XPMPSetAircraftLabelDist (demo_glob true SWITCH_CFG_AUTO [])
                          (f32_of_int 5) true)) = true.
Proof.
  split.
  - exact (proj2 (proj2 (proj2 (proj2 (proj2
      (C10_label_distance_at_least_one_mile (demo_glob true SWITCH_CFG_AUTO [])
         (f32_of_int (-3)) true eq_refl eq_refl))))) eq_refl).
  - exact (proj1 (proj2 (proj2 (proj2 (proj2
      (C10_label_distance_at_least_one_mile (demo_glob true SWITCH_CFG_AUTO [])
         (f32_of_int 5) true eq_refl eq_refl)))))).
Defined.

(** [C10], as stated for every input, fails. For the input NaN the
    comparison of [std::max] is false, so [std::max(NaN, 1.0f)] is its
    first argument: the distance stored is NaN, it is not the 1852 m of
    the clamp, and [1852 <= stored] does not hold. So not every input
    leaves a stored distance of at least one nautical mile. *)
Lemma C10_nan_request_is_not_clamped :
  is_binary32 S754_nan = true /\
  std_max S754_nan f_1_0 = S754_nan /\
  maxLabelDist (XPMPSetAircraftLabelDist (demo_glob true SWITCH_CFG_AUTO [])
                  S754_nan true) = S754_nan /\
  f32_le (f32_of_int 1852)
         (maxLabelDist (XPMPSetAircraftLabelDist (demo_glob true SWITCH_CFG_AUTO [])
                          S754_nan true)) = false /\
  ~ (forall (glob : GlobVars) (_dist_nm : float) (_bCutOffAtVisibility : bool),
       is_binary32 _dist_nm = true ->
       f32_le (f32_of_int 1852)
              (maxLabelDist (XPMPSetAircraftLabelDist glob _dist_nm _bCutOffAtVisibility))
       = true).
Proof.
  split; [ reflexivity | ]. split; [ reflexivity | ].
  split; [ reflexivity | ]. split; [ reflexivity | ].
  intros H.
  specialize (H (demo_glob true SWITCH_CFG_AUTO []) S754_nan true eq_refl).
  discriminate H.
Qed.

(* ================================================================== *)
(** * Further properties of the module *)
(* ================================================================== *)

(** ** Which labels are drawn, and with which calls *)

Section TurnFacts.
Context {rt : CRuntime}.

Lemma loop_turn_shown (glob : GlobVars) (xp : XPlane) (fs : FrameState) (dist : float)
  (id : Z) (ac : Aircraft) :
  label_shown glob fs dist ac = true ->
  exists c, model_category ac = Returns c /\
    loop_turn glob xp fs dist (id, ac) =
    fst (draw_label xp ac
           (out_x (ConvertTo2d (UsingModernGraphicsDriver glob) fs (drawInfo_x ac)
                     (drawInfo_y ac |+| wake_offset c) (drawInfo_z ac)))
           (out_y (ConvertTo2d (UsingModernGraphicsDriver glob) fs (drawInfo_x ac)
                     (drawInfo_y ac |+| wake_offset c) (drawInfo_z ac)))).
Proof.
  unfold label_shown. intros H.
  destruct (IsRendered ac) as [[ | ] | ] eqn:Hr; try discriminate.
  destruct (ShallDrawLabel ac) as [s | ] eqn:Hs; try discriminate.
  destruct (GetCameraDist ac) as [d | ] eqn:Hd; try discriminate.
  destruct (model_category ac) as [c | ] eqn:Hc; try discriminate.
  apply andb_true_iff in H. destruct H as [H Hv].
  apply andb_true_iff in H. destruct H as [Hso Hlt].
  apply negb_true_iff in Hlt.
  exists c. split; [ reflexivity | ].
  unfold loop_turn. cbn [fst snd].
  rewrite (label_aircraft_checked glob xp fs dist ac s d c Hr Hs Hso Hd Hlt Hc).
  unfold project_and_draw. rewrite Hv. apply catch_ac_draw_label.
Qed.

Lemma loop_turn_hidden (glob : GlobVars) (xp : XPlane) (fs : FrameState) (dist : float)
  (id : Z) (ac : Aircraft) :
  label_shown glob fs dist ac = false ->
  loop_turn glob xp fs dist (id, ac) = [] \/
  exists w, loop_turn glob xp fs dist (id, ac) = [LogAcException id w].
Proof.
  unfold label_shown, loop_turn, label_aircraft. cbn [fst snd]. intros H.
  rewrite bind_eval.
  destruct (IsRendered ac) as [[ | ] | w]; cbn [negb];
    try (left; reflexivity); try (right; eexists; reflexivity).
  rewrite bind_eval.
  destruct (ShallDrawLabel ac) as [s | w]; try (right; eexists; reflexivity).
  destruct (s || SwitchCfg_eqb (eLabelOverride glob) SWITCH_CFG_ON) eqn:Hso; cbn [negb];
    try (left; reflexivity).
  rewrite bind_eval.
  destruct (GetCameraDist ac) as [d | w]; try (right; eexists; reflexivity).
  destruct (f32_lt dist d) eqn:Hlt; try (left; reflexivity).
  rewrite vertLabelOfs_category.
  destruct (model_category ac) as [c | w]; try (right; eexists; reflexivity).
  unfold ret. rewrite bind_returns.
  cbn [andb negb] in H. rewrite H. left. reflexivity.
Qed.

End TurnFacts.

(** [X1] The pass draws the label of an aircraft exactly when the pass is
    enabled, the aircraft is rendered, its label flag is on or the
    override is FORCE_ON, it is not farther than the maximum label
    distance, its model category can be read, and its raised position
    projects as visible. *)
Theorem X1_label_drawn_iff
  {rt : CRuntime} (glob : GlobVars) (xp : XPlane) (dr : DataRefs) (fs : FrameState)
  (id : Z) (ac : Aircraft) :
  draws (calls_for glob xp dr fs (id, ac)) =
  negb (pass_disabled glob)
  && label_shown glob (fst (fst (pass_setup glob xp dr fs)))
       (snd (fst (pass_setup glob xp dr fs))) ac.
Proof.
  unfold calls_for. destruct (pass_disabled glob); [ reflexivity | ]. cbn [negb andb].
  destruct (label_shown glob (fst (fst (pass_setup glob xp dr fs)))
              (snd (fst (pass_setup glob xp dr fs))) ac) eqn:E.
  - destruct (loop_turn_shown glob xp _ _ id ac E) as (c & _ & ->).
    apply draw_label_draws.
  - destruct (loop_turn_hidden glob xp _ _ id ac E) as [-> | [w ->]]; reflexivity.
Qed.

(** [X2] No label is drawn in part. The calls of the pass for one
    aircraft are none at all, or the single log line of a caught failure,
    or the whole sequence of a label: two measurements, the eight calls of
    the quad in the background colour, the label text in the label colour
    and, exactly when the sub-label is not empty, the sub-label text. *)
Theorem X2_no_partial_label
  {rt : CRuntime} (glob : GlobVars) (xp : XPlane) (dr : DataRefs) (fs : FrameState)
  (id : Z) (ac : Aircraft) :
  calls_for glob xp dr fs (id, ac) = [] \/
  (exists w, calls_for glob xp dr fs (id, ac) = [LogAcException id w]) \/
  (exists (left top right bottom : float) (labelX y subLabelX subY : Z),
     calls_for glob xp dr fs (id, ac) =
     [ XPLMMeasureString (label ac) (String.length (label ac));
       XPLMMeasureString (subLabel ac) (String.length (subLabel ac)) ]
     ++ quad_calls left top right bottom (colBackground ac)
     ++ [ XPLMDrawString (colLabel ac) labelX y (label ac) ]
     ++ (if string_empty (subLabel ac) then []
         else [ XPLMDrawString gray subLabelX subY (subLabel ac) ])).
Proof.
  unfold calls_for. destruct (pass_disabled glob); [ left; reflexivity | ].
  destruct (label_shown glob (fst (fst (pass_setup glob xp dr fs)))
              (snd (fst (pass_setup glob xp dr fs))) ac) eqn:E.
  - right. right.
    destruct (loop_turn_shown glob xp _ _ id ac E) as (c & _ & ->).
    rewrite draw_label_calls. cbv zeta. cbn [fst].
    do 8 eexists. reflexivity.
  - destruct (loop_turn_hidden glob xp _ _ id ac E) as [-> | [w ->]];
      [ left; reflexivity | right; left; exists w; reflexivity ].
Qed.

Lemma count_calls_app (f : HostCall -> bool) (a b : list HostCall) :
  count_calls f (a ++ b) = (count_calls f a + count_calls f b)%nat.
Proof. unfold count_calls. rewrite filter_app, length_app. reflexivity. Qed.

Lemma quad_calls_one_begin (left top right bottom : float) (c : RGBA) :
  count_calls is_quad_begin (quad_calls left top right bottom c) = 1%nat.
Proof. destruct c as [[[r g] b] a]. reflexivity. Qed.

Lemma draw_label_one_quad {rt : CRuntime} (xp : XPlane) (ac : Aircraft) (x y : Z) :
  count_calls is_quad_begin (fst (draw_label xp ac x y)) = 1%nat.
Proof.
  rewrite draw_label_calls. cbv zeta. cbn [fst].
  rewrite !count_calls_app, quad_calls_one_begin.
  destruct (string_empty (subLabel ac)); reflexivity.
Qed.

Lemma pass_setup_reads (glob : GlobVars) (xp : XPlane) (dr : DataRefs) (fs : FrameState) :
  snd (pass_setup glob xp dr fs) =
  [ XPLMGetDatavf (drMatrixWrld dr) 0 16;
    XPLMGetDatavf (drMatrixProj dr) 0 16;
    XPLMGetDatai (drScreenWidth dr);
    XPLMGetDatai (drScreenHeight dr);
    XPLMGetDataf (drFieldOfView dr);
    XPLMReadCameraPosition ]
  ++ (if bLabelCutOffAtVisibility glob && negb (is_null (drVisibility dr))
      then [XPLMGetDataf (drVisibility dr)] else []).
Proof.
  unfold pass_setup, read_matrices, effectiveVisibility.
  destruct (bLabelCutOffAtVisibility glob && negb (is_null (drVisibility dr))); reflexivity.
Qed.

(** [X3] An enabled pass draws one quad for each aircraft of the map
    whose label is shown, and no other; a disabled pass draws none. *)
Theorem X3_one_quad_per_shown_label
  {rt : CRuntime} (glob : GlobVars) (xp : XPlane) (dr : DataRefs) (fs : FrameState) :
  count_calls is_quad_begin (snd (TwoDDrawLabels glob xp dr fs)) =
  if pass_disabled glob then 0%nat
  else List.length
         (filter (fun p : Z * Aircraft =>
                    label_shown glob (fst (fst (pass_setup glob xp dr fs)))
                      (snd (fst (pass_setup glob xp dr fs))) (snd p))
                 (mapAc glob)).
Proof.
  rewrite TwoDDrawLabels_calls, count_calls_app.
  unfold setup_calls, calls_for.
  destruct (pass_disabled glob).
  - rewrite flat_map_nil. reflexivity.
  - rewrite pass_setup_reads, count_calls_app.
    replace (count_calls is_quad_begin
               (if bLabelCutOffAtVisibility glob && negb (is_null (drVisibility dr))
                then [XPLMGetDataf (drVisibility dr)] else [])) with 0%nat
      by (destruct (bLabelCutOffAtVisibility glob && negb (is_null (drVisibility dr)));
          reflexivity).
    cbn [count_calls filter is_quad_begin List.length Nat.add].
    induction (mapAc glob) as [ | [id ac] l IH]; [ reflexivity | ].
    cbn [flat_map filter snd]. rewrite count_calls_app, IH.
    destruct (label_shown glob (fst (fst (pass_setup glob xp dr fs)))
                (snd (fst (pass_setup glob xp dr fs))) ac) eqn:E.
    + destruct (loop_turn_shown glob xp _ _ id ac E) as (c & _ & ->).
      rewrite draw_label_one_quad. reflexivity.
    + destruct (loop_turn_hidden glob xp _ _ id ac E) as [-> | [w ->]]; reflexivity.
Qed.

Lemma turn_no_data_read {rt : CRuntime} (glob : GlobVars) (xp : XPlane) (fs : FrameState)
  (dist : float) (p : Z * Aircraft) :
  existsb is_data_read (loop_turn glob xp fs dist p) = false.
Proof.
  destruct p as [id ac].
  destruct (label_shown glob fs dist ac) eqn:E.
  - destruct (loop_turn_shown glob xp fs dist id ac E) as (c & _ & ->).
    rewrite draw_label_calls. cbv zeta. cbn [fst].
    destruct (colBackground ac) as [[[r g] b] a].
    destruct (string_empty (subLabel ac)); reflexivity.
  - destruct (loop_turn_hidden glob xp fs dist id ac E) as [-> | [w ->]]; reflexivity.
Qed.

(** [X4] An enabled pass reads the state of the simulator once, before
    it visits any aircraft: its calls begin with the reads of the two
    matrices, the window size, the field of view and the camera, followed
    by the read of the visibility exactly when the cut-off is configured
    and a visibility dataref was found; no call made for an aircraft reads
    the simulator state. *)
Theorem X4_frame_state_read_once_before_the_loop
  {rt : CRuntime} (glob : GlobVars) (xp : XPlane) (dr : DataRefs) (fs : FrameState) :
  pass_disabled glob = false ->
  snd (TwoDDrawLabels glob xp dr fs) =
  ([ XPLMGetDatavf (drMatrixWrld dr) 0 16;
     XPLMGetDatavf (drMatrixProj dr) 0 16;
     XPLMGetDatai (drScreenWidth dr);
     XPLMGetDatai (drScreenHeight dr);
     XPLMGetDataf (drFieldOfView dr);
     XPLMReadCameraPosition ]
   ++ (if bLabelCutOffAtVisibility glob && negb (is_null (drVisibility dr))
       then [XPLMGetDataf (drVisibility dr)] else []))
  ++ flat_map (calls_for glob xp dr fs) (mapAc glob) /\
  existsb is_data_read (flat_map (calls_for glob xp dr fs) (mapAc glob)) = false /\
  fst (TwoDDrawLabels glob xp dr fs) = fst (read_matrices xp dr fs).
Proof.
  intros Hen. split; [ | split ].
  - rewrite TwoDDrawLabels_calls. unfold setup_calls. rewrite Hen, pass_setup_reads.
    reflexivity.
  - unfold calls_for. rewrite Hen.
    induction (mapAc glob) as [ | p l IH]; [ reflexivity | ].
    cbn [flat_map]. rewrite existsb_app, IH, turn_no_data_read. reflexivity.
  - unfold TwoDDrawLabels. fold (pass_disabled glob). rewrite Hen.
    unfold pass_setup. destruct (read_matrices xp dr fs) as [fs' t1].
    destruct (effectiveVisibility glob xp dr) as [v t2]. reflexivity.
Qed.

Lemma X4_frame_state_read_once_before_the_loop_witness :
  existsb is_data_read
    (flat_map (@calls_for linux_x86_64
                 (demo_glob true SWITCH_CFG_AUTO
                    [(1, demo_aircraft true "L"); (2, broken_aircraft)])
                 demo_xplane demo_datarefs demo_frame)
       (mapAc (demo_glob true SWITCH_CFG_AUTO
                 [(1, demo_aircraft true "L"); (2, broken_aircraft)]))) = false.
Proof.
  exact (proj1 (proj2
    (@X4_frame_state_read_once_before_the_loop linux_x86_64
       (demo_glob true SWITCH_CFG_AUTO [(1, demo_aircraft true "L"); (2, broken_aircraft)])
       demo_xplane demo_datarefs demo_frame eq_refl))).
Defined.

(** ** OpenGL immediate mode *)

Lemma gl_run_app (st : GLState) (a b : list HostCall) :
  gl_run st (a ++ b) =
  match gl_run st a with
  | Some st' => gl_run st' b
  | None => None
  end.
Proof.
  revert st. induction a as [ | h a IH]; intros st; [ reflexivity | ].
  cbn [app gl_run]. destruct (gl_step st h); [ apply IH | reflexivity ].
Qed.

Lemma gl_run_turn {rt : CRuntime} (glob : GlobVars) (xp : XPlane) (fs : FrameState)
  (dist : float) (p : Z * Aircraft) :
  gl_run GLOutside (loop_turn glob xp fs dist p) = Some GLOutside.
Proof.
  destruct p as [id ac].
  destruct (label_shown glob fs dist ac) eqn:E.
  - destruct (loop_turn_shown glob xp fs dist id ac E) as (c & _ & ->).
    rewrite draw_label_calls. cbv zeta. cbn [fst].
    destruct (colBackground ac) as [[[r g] b] a].
    destruct (string_empty (subLabel ac)); reflexivity.
  - destruct (loop_turn_hidden glob xp fs dist id ac E) as [-> | [w ->]]; reflexivity.
Qed.

(** [X5] In the calls of every pass, [glBegin] and [glEnd] are balanced,
    each pair encloses exactly the four vertices of one quad, and no call
    into X-Plane falls between them. *)
Theorem X5_quads_are_well_bracketed
  {rt : CRuntime} (glob : GlobVars) (xp : XPlane) (dr : DataRefs) (fs : FrameState) :
  gl_run GLOutside (snd (TwoDDrawLabels glob xp dr fs)) = Some GLOutside.
Proof.
  rewrite TwoDDrawLabels_calls, gl_run_app.
  unfold setup_calls, calls_for.
  destruct (pass_disabled glob).
  - rewrite flat_map_nil. reflexivity.
  - rewrite pass_setup_reads.
    replace (gl_run GLOutside _) with (Some GLOutside)
      by (destruct (bLabelCutOffAtVisibility glob && negb (is_null (drVisibility dr)));
          reflexivity).
    induction (mapAc glob) as [ | p l IH]; [ reflexivity | ].
    cbn [flat_map]. rewrite gl_run_app, gl_run_turn. exact IH.
Qed.

(** ** Culling by distance *)

Lemma f32_lt_irrefl (x : float) : f32_lt x x = false.
Proof.
  destruct x as [s | s | | s m e]; unfold f32_lt, SFltb, SFcompare;
    try (destruct s; reflexivity); try reflexivity.
  rewrite Z.compare_refl.
  change (Pos.compare_cont Eq m m) with (Pos.compare m m). rewrite Pos.compare_refl.
  destruct s; reflexivity.
Qed.

Lemma f32_lt_nan_l (x : float) : f32_lt S754_nan x = false.
Proof. reflexivity. Qed.

Lemma f32_lt_nan_r (x : float) : f32_lt x S754_nan = false.
Proof. destruct x; reflexivity. Qed.

(** [X6] An aircraft that is rendered and whose label may be shown is
    culled, with no call at all and without its model being consulted,
    when its camera distance is greater than the maximum label distance.
    It is not culled when the two distances are equal, nor when either of
    them is not a number. *)
Theorem X6_distance_culling
  {rt : CRuntime} (glob : GlobVars) (xp : XPlane) (fs : FrameState) (dist : float)
  (id : Z) (ac : Aircraft) (s : bool) (d : float) :
  IsRendered ac = Returns true ->
  ShallDrawLabel ac = Returns s ->
  s || SwitchCfg_eqb (eLabelOverride glob) SWITCH_CFG_ON = true ->
  GetCameraDist ac = Returns d ->
  (f32_lt dist d = true -> loop_turn glob xp fs dist (id, ac) = []) /\
  (d = dist \/ is_nan d = true \/ is_nan dist = true ->
   forall c, model_category ac = Returns c ->
   label_aircraft glob xp fs dist ac = project_and_draw glob xp fs ac (wake_offset c)).
Proof.
  intros Hr Hs Hso Hd. split.
  - intros Hlt. unfold loop_turn, label_aircraft. cbn [fst snd].
    rewrite Hr, bind_eval. cbn [negb].
    rewrite Hs, bind_eval, Hso. cbn [negb].
    rewrite Hd, bind_eval, Hlt. reflexivity.
  - intros Hcase c Hc.
    apply (label_aircraft_checked glob xp fs dist ac s d c Hr Hs Hso Hd); [ | exact Hc ].
    destruct Hcase as [-> | [Hn | Hn]].
    + apply f32_lt_irrefl.
    + destruct d; try discriminate. apply f32_lt_nan_r.
    + destruct dist; try discriminate. apply f32_lt_nan_l.
Qed.

Lemma X6_distance_culling_witness :
  @loop_turn linux_x86_64 (demo_glob true SWITCH_CFG_AUTO []) demo_xplane demo_frame
     (f32_of_int 2999) (1, demo_aircraft true "L") = [] /\
  @label_aircraft linux_x86_64 (demo_glob true SWITCH_CFG_AUTO []) demo_xplane demo_frame
     (f32_of_int 3000) (demo_aircraft true "L") =
  @project_and_draw linux_x86_64 (demo_glob true SWITCH_CFG_AUTO []) demo_xplane demo_frame
     (demo_aircraft true "L") (wake_offset (Some "L"%char)).
Proof.
  split.
  - exact (proj1 (@X6_distance_culling linux_x86_64 (demo_glob true SWITCH_CFG_AUTO [])
                    demo_xplane demo_frame (f32_of_int 2999) 1 (demo_aircraft true "L")
                    true (f32_of_int 3000) eq_refl eq_refl eq_refl eq_refl) eq_refl).
  - exact (proj2 (@X6_distance_culling linux_x86_64 (demo_glob true SWITCH_CFG_AUTO [])
                    demo_xplane demo_frame (f32_of_int 3000) 1 (demo_aircraft true "L")
                    true (f32_of_int 3000) eq_refl eq_refl eq_refl eq_refl)
                 (or_introl eq_refl) (Some "L"%char) eq_refl).
Defined.

(** ** The texts of a label *)

Lemma quot2_bounds (a : Z) : 0 <= a -> 0 <= Z.quot a 2 /\ 2 * Z.quot a 2 <= a <= 2 * Z.quot a 2 + 1.
Proof.
  intros Ha. pose proof (Z.quot_rem' a 2) as Hq.
  pose proof (Z.rem_bound_pos a 2 Ha ltac:(lia)). lia.
Qed.

Lemma in_int_range_iff (z : Z) : in_int_range z = true <-> -2147483648 <= z <= 2147483647.
Proof.
  unfold in_int_range, INT_MIN, INT_MAX. rewrite andb_true_iff, !Z.leb_le.
  change (2 ^ 31) with 2147483648. lia.
Qed.

(** [X7] For a label drawn at the pixel [(x, y)], with measured widths
    that are not negative and no overflow of [int]: the label text is
    drawn at height [y] in the label colour of the aircraft and the
    sub-label text, when there is one, at height [y - 25] in the fixed
    gray; each text starts at or after the left edge of the box proper,
    ends at or before its right edge, and is centred in it up to one
    pixel. *)
Theorem X7_texts_centred_in_the_box
  {rt : CRuntime} (xp : XPlane) (ac : Aircraft) (x y : Z) :
  let labelWidth := int_of_float (xp_measure xp (label ac)) in
  let subLabelWidth := int_of_float (xp_measure xp (subLabel ac)) in
  let boxWidth := Z.max labelWidth subLabelWidth in
  let boxLeft := x - Z.quot boxWidth 2 in
  let labelX := boxLeft + Z.quot (boxWidth - labelWidth) 2 in
  let subLabelX := boxLeft + Z.quot (boxWidth - subLabelWidth) 2 in
  0 <= labelWidth -> 0 <= subLabelWidth ->
  in_int_range (boxLeft - 5) = true ->
  in_int_range (boxLeft + boxWidth + 5) = true ->
  in_int_range (y + 15) = true ->
  in_int_range (y - 25) = true ->
  fst (draw_label xp ac x y) =
    [ XPLMMeasureString (label ac) (String.length (label ac));
      XPLMMeasureString (subLabel ac) (String.length (subLabel ac)) ]
    ++ quad_calls (f32_of_int (boxLeft - 5)) (f32_of_int (y + 15))
                  (f32_of_int (boxLeft + boxWidth + 5)) (f32_of_int (y - 10))
                  (colBackground ac)
    ++ [ XPLMDrawString (colLabel ac) labelX y (label ac) ]
    ++ (if string_empty (subLabel ac) then []
        else [ XPLMDrawString gray subLabelX (y - 25) (subLabel ac) ]) /\
  boxLeft <= labelX /\ labelX + labelWidth <= boxLeft + boxWidth /\
  0 <= (boxLeft + boxWidth - (labelX + labelWidth)) - (labelX - boxLeft) <= 1 /\
  boxLeft <= subLabelX /\ subLabelX + subLabelWidth <= boxLeft + boxWidth /\
  0 <= (boxLeft + boxWidth - (subLabelX + subLabelWidth)) - (subLabelX - boxLeft) <= 1.
Proof.
  intros labelWidth subLabelWidth boxWidth boxLeft labelX subLabelX
         Hlw Hsw H1 H2 H3 H4.
  apply in_int_range_iff in H1, H2, H3, H4.
  assert (Hlr : -2147483648 <= labelWidth <= 2147483647)
    by (apply in_int_range_iff, int_of_float_range).
  assert (Hsr : -2147483648 <= subLabelWidth <= 2147483647)
    by (apply in_int_range_iff, int_of_float_range).
  assert (Hbw : 0 <= boxWidth <= 2147483647) by (unfold boxWidth; lia).
  destruct (quot2_bounds boxWidth ltac:(lia)) as [Hq0 Hq].
  destruct (quot2_bounds (boxWidth - labelWidth) ltac:(unfold boxWidth; lia)) as [Hl0 Hl].
  destruct (quot2_bounds (boxWidth - subLabelWidth) ltac:(unfold boxWidth; lia)) as [Hs0 Hs].
  split.
  - rewrite draw_label_calls. cbv zeta. cbn [fst].
    fold labelWidth. fold subLabelWidth. rewrite gtb_max. fold boxWidth.
    rewrite (int_div_2 boxWidth) by (apply in_int_range_iff; lia).
    replace (int_sub x (Z.quot boxWidth 2)) with boxLeft
      by (symmetry; apply wrap_int_id, in_int_range_iff; unfold boxLeft in *; lia).
    replace (int_sub boxLeft 5) with (boxLeft - 5)
      by (symmetry; apply wrap_int_id, in_int_range_iff; lia).
    replace (int_add y 15) with (y + 15)
      by (symmetry; apply wrap_int_id, in_int_range_iff; lia).
    replace (int_add boxLeft boxWidth) with (boxLeft + boxWidth)
      by (symmetry; apply wrap_int_id, in_int_range_iff; lia).
    replace (int_add (boxLeft + boxWidth) 5) with (boxLeft + boxWidth + 5)
      by (symmetry; apply wrap_int_id, in_int_range_iff; lia).
    replace (int_sub y 10) with (y - 10)
      by (symmetry; apply wrap_int_id, in_int_range_iff; lia).
    replace (int_sub y 25) with (y - 25)
      by (symmetry; apply wrap_int_id, in_int_range_iff; lia).
    replace (int_sub boxWidth labelWidth) with (boxWidth - labelWidth)
      by (symmetry; apply wrap_int_id, in_int_range_iff; unfold boxWidth in *; lia).
    replace (int_sub boxWidth subLabelWidth) with (boxWidth - subLabelWidth)
      by (symmetry; apply wrap_int_id, in_int_range_iff; unfold boxWidth in *; lia).
    rewrite (int_div_2 (boxWidth - labelWidth))
      by (apply in_int_range_iff; unfold boxWidth in *; lia).
    rewrite (int_div_2 (boxWidth - subLabelWidth))
      by (apply in_int_range_iff; unfold boxWidth in *; lia).
    replace (int_add boxLeft (Z.quot (boxWidth - labelWidth) 2)) with labelX
      by (symmetry; apply wrap_int_id, in_int_range_iff; unfold labelX; lia).
    replace (int_add boxLeft (Z.quot (boxWidth - subLabelWidth) 2)) with subLabelX
      by (symmetry; apply wrap_int_id, in_int_range_iff; unfold subLabelX; lia).
    reflexivity.
  - unfold labelX, subLabelX. lia.
Qed.

Lemma X7_texts_centred_in_the_box_witness :
  fst (@draw_label linux_x86_64 demo_xplane (demo_aircraft true "L") 282 311) =
  [ XPLMMeasureString "N123" 4; XPLMMeasureString "B738 LH" 7 ]
  ++ quad_calls (f32_of_int 242) (f32_of_int 326) (f32_of_int 322) (f32_of_int 301) shade
  ++ [ XPLMDrawString white 262 311 "N123" ]
  ++ [ XPLMDrawString gray 247 286 "B738 LH" ].
Proof.
  exact (proj1 (@X7_texts_centred_in_the_box linux_x86_64 demo_xplane
                  (demo_aircraft true "L") 282 311
                  ltac:(vm_compute; discriminate) ltac:(vm_compute; discriminate)
                  eq_refl eq_refl eq_refl eq_refl)).
Defined.

(** ** The frame state *)

Lemma GetDatavf_full (xp : XPlane) (name : string) (out : list float) :
  (16 <= List.length (xp_datavf xp name))%nat ->
  List.length out = 16%nat ->
  GetDatavf xp (Some name) out 16 = firstn 16 (xp_datavf xp name).
Proof.
  intros Hl Ho. unfold GetDatavf.
  rewrite firstn_length_le by exact Hl.
  rewrite skipn_all2 by (rewrite Ho; apply Nat.le_refl).
  apply app_nil_r.
Qed.

Lemma GetDatavf_idempotent (xp : XPlane) (d : XPLMDataRef) (out : list float) (n : nat) :
  GetDatavf xp d (GetDatavf xp d out n) n = GetDatavf xp d out n.
Proof.
  unfold GetDatavf. destruct d as [name | ]; [ | reflexivity ].
  rewrite skipn_app, skipn_all, Nat.sub_diag. reflexivity.
Qed.

(** [X8] No stale frame state. When both matrix datarefs were found and
    deliver their sixteen values, an enabled pass makes the same calls and
    leaves the same frame state whatever the frame state of the previous
    frame was; and in any case a second refresh from the same simulator
    state changes nothing. *)
Theorem X8_no_stale_frame_state
  {rt : CRuntime} (glob : GlobVars) (xp : XPlane) (dr : DataRefs) (fs1 fs2 : FrameState)
  (wrld proj : string) :
  pass_disabled glob = false ->
  drMatrixWrld dr = Some wrld -> drMatrixProj dr = Some proj ->
  (16 <= List.length (xp_datavf xp wrld))%nat ->
  (16 <= List.length (xp_datavf xp proj))%nat ->
  List.length (gMatrixWrld fs1) = 16%nat -> List.length (gMatrixProj fs1) = 16%nat ->
  List.length (gMatrixWrld fs2) = 16%nat -> List.length (gMatrixProj fs2) = 16%nat ->
  TwoDDrawLabels glob xp dr fs1 = TwoDDrawLabels glob xp dr fs2 /\
  fst (read_matrices xp dr (fst (read_matrices xp dr fs1))) = fst (read_matrices xp dr fs1).
Proof.
  intros Hen Hw Hp Hlw Hlp H1w H1p H2w H2p.
  assert (Hread : read_matrices xp dr fs1 = read_matrices xp dr fs2).
  { unfold read_matrices. rewrite Hw, Hp.
    rewrite !GetDatavf_full by assumption. reflexivity. }
  split.
  - unfold TwoDDrawLabels. fold (pass_disabled glob). rewrite Hen.
    unfold pass_setup. rewrite Hread. reflexivity.
  - unfold read_matrices. cbn [fst gMatrixWrld gMatrixProj].
    rewrite !GetDatavf_idempotent. reflexivity.
Qed.

Lemma X8_no_stale_frame_state_witness :
  @TwoDDrawLabels linux_x86_64 (demo_glob true SWITCH_CFG_AUTO [(1, demo_aircraft true "L")])
     demo_xplane demo_datarefs demo_frame =
  @TwoDDrawLabels linux_x86_64 (demo_glob true SWITCH_CFG_AUTO [(1, demo_aircraft true "L")])
     demo_xplane demo_datarefs
     {| gMatrixWrld := demo_projection; gMatrixProj := identity4;
        gScreenW := f_0_0; gScreenH := f_0_0; gFOV := f_0_0 |}.
Proof.
  refine (proj1 (@X8_no_stale_frame_state linux_x86_64
            (demo_glob true SWITCH_CFG_AUTO [(1, demo_aircraft true "L")])
            demo_xplane demo_datarefs demo_frame
            {| gMatrixWrld := demo_projection; gMatrixProj := identity4;
               gScreenW := f_0_0; gScreenH := f_0_0; gFOV := f_0_0 |}
            "sim/graphics/view/world_matrix" "sim/graphics/view/projection_matrix_3d"
            eq_refl eq_refl eq_refl _ _ eq_refl eq_refl eq_refl eq_refl));
    vm_compute; repeat constructor.
Defined.

(** ** Enabling and disabling *)

Lemma callback_state_app (reg : bool) (a b : list HostCall) :
  callback_state reg (a ++ b) =
  match callback_state reg a with
  | Some r => callback_state r b
  | None => None
  end.
Proof.
  revert reg. induction a as [ | h a IH]; intros reg; [ reflexivity | ].
  destruct h; cbn [app callback_state]; try apply IH.
  destruct reg; [ reflexivity | apply IH ].
Qed.

Lemma api_step_callback (glob : GlobVars) (c : ApiCall) :
  callback_state (bDrawLabels glob) (snd (api_step glob c)) =
  Some (bDrawLabels (fst (api_step glob c))) /\
  eLabelOverride (fst (api_step glob c)) = eLabelOverride glob /\
  mapAc (fst (api_step glob c)) = mapAc glob.
Proof.
  destruct c as [b | | d cut]; cbn [api_step];
    unfold XPMPDisableAircraftLabels, XPMPEnableAircraftLabels;
    try (repeat split; reflexivity);
    destruct (eLabelOverride glob) eqn:Ho, (bDrawLabels glob) eqn:Hb; try destruct b;
    cbn [Bool.eqb fst snd set_bDrawLabels bDrawLabels eLabelOverride mapAc app
         callback_state TwoDActivate TwoDDeactivate];
    rewrite ?Hb, ?Ho; repeat split; reflexivity.
Qed.

Lemma api_run_callback (cs : list ApiCall) :
  forall glob : GlobVars,
  callback_state (bDrawLabels glob) (snd (api_run glob cs)) =
  Some (bDrawLabels (fst (api_run glob cs))) /\
  eLabelOverride (fst (api_run glob cs)) = eLabelOverride glob /\
  mapAc (fst (api_run glob cs)) = mapAc glob.
Proof.
  induction cs as [ | c cs IH]; intros glob; [ repeat split; reflexivity | ].
  cbn [api_run].
  destruct (api_step_callback glob c) as (Hc & Ho & Hm).
  destruct (api_step glob c) as [glob1 t1]. cbn [fst snd] in *.
  destruct (IH glob1) as (Hc' & Ho' & Hm').
  destruct (api_run glob1 cs) as [glob2 t2]. cbn [fst snd] in *.
  rewrite callback_state_app, Hc. repeat split; congruence.
Qed.

(** [X9] The drawing callback is registered exactly when label drawing is
    on. After [TwoDInit] and any sequence of calls of
    [XPMPEnableAircraftLabels], [XPMPDisableAircraftLabels] and
    [XPMPSetAircraftLabelDist], the callback has never been registered
    twice, and it is registered if and only if [bDrawLabels] is set; the
    override mode and the aircraft are left as they were. *)
Theorem X9_callback_registered_iff_labels_on
  (glob : GlobVars) (xp : XPlane) (cs : list ApiCall) :
  callback_state false (snd (TwoDInit glob xp) ++ snd (api_run glob cs)) =
  Some (bDrawLabels (fst (api_run glob cs))) /\
  eLabelOverride (fst (api_run glob cs)) = eLabelOverride glob /\
  mapAc (fst (api_run glob cs)) = mapAc glob.
Proof.
  destruct (api_run_callback cs glob) as (Hc & Ho & Hm).
  split; [ | split; assumption ].
  rewrite callback_state_app.
  replace (callback_state false (snd (TwoDInit glob xp))) with (Some (bDrawLabels glob))
    by (unfold TwoDInit; cbn [snd]; destruct (bDrawLabels glob); reflexivity).
  exact Hc.
Qed.

Lemma TwoDDrawLabels_idle_iff {rt : CRuntime}
  (glob : GlobVars) (xp : XPlane) (dr : DataRefs) (fs : FrameState) :
  snd (TwoDDrawLabels glob xp dr fs) = [] <-> pass_disabled glob = true.
Proof.
  pose proof (pass_setup_calls_nonempty glob xp dr fs) as Hne.
  unfold TwoDDrawLabels. fold (pass_disabled glob).
  destruct (pass_disabled glob).
  - split; reflexivity.
  - destruct (pass_setup glob xp dr fs) as [[fs' dist] t]. cbn [snd] in *.
    split; intros H; try discriminate.
    apply app_eq_nil in H. destruct H as [H _]. contradiction.
Qed.

(** [X10] The override of the configuration file reaches the pass
    through the API. After a call of [XPMPEnableAircraftLabels] (and so of
    [XPMPDisableAircraftLabels]) the next pass does no work under
    FORCE_OFF, and does its work under FORCE_ON, whatever was requested
    and whatever the flag was before; under AUTO the pass works exactly
    when enabling was requested. In particular
    [XPMPDisableAircraftLabels] leaves label drawing on under FORCE_ON. *)
Theorem X10_override_reaches_the_pass_through_the_api
  {rt : CRuntime} (glob : GlobVars) (_enable : bool)
  (xp : XPlane) (dr : DataRefs) (fs : FrameState) :
  (snd (TwoDDrawLabels (fst (XPMPEnableAircraftLabels glob _enable)) xp dr fs) = [] <->
   match eLabelOverride glob with
   | SWITCH_CFG_ON => False
   | SWITCH_CFG_OFF => True
   | SWITCH_CFG_AUTO => _enable = false
   end) /\
  XPMPDrawingAircraftLabels (fst (XPMPDisableAircraftLabels glob)) =
    SwitchCfg_eqb (eLabelOverride glob) SWITCH_CFG_ON.
Proof.
  split.
  - rewrite TwoDDrawLabels_idle_iff. unfold pass_disabled.
    rewrite XPMPEnableAircraftLabels_override.
    pose proof (proj1 (proj2 (api_step_callback glob (ApiEnable _enable)))) as Ho.
    cbn [api_step] in Ho. rewrite Ho.
    destruct (eLabelOverride glob), _enable; cbn; split; intros H;
      try reflexivity; try discriminate; try contradiction; exact I.
  - unfold XPMPDisableAircraftLabels, XPMPDrawingAircraftLabels.
    rewrite XPMPEnableAircraftLabels_override.
    destruct (eLabelOverride glob); reflexivity.
Qed.

(** ** The life of the drawing callback *)

Lemma init_api_callback_state (glob : GlobVars) (xp : XPlane) (cs : list ApiCall) :
  callback_state false (snd (TwoDInit glob xp) ++ snd (api_run glob cs)) =
  Some (bDrawLabels (fst (api_run glob cs))).
Proof.
  rewrite callback_state_app.
  replace (callback_state false (snd (TwoDInit glob xp))) with (Some (bDrawLabels glob))
    by (unfold TwoDInit; cbn [snd]; destruct (bDrawLabels glob); reflexivity).
  exact (proj1 (api_run_callback cs glob)).
Qed.

(** [X17] The life of the drawing callback. After [TwoDInit] and any
    sequence of API calls, [TwoDCleanup] leaves the callback unregistered,
    whether or not it was registered; the callback [CPLabelDrawing]
    always returns 1; and the label pass can only do work while its
    callback is registered: in a state in which the callback is not
    registered, a run of the callback makes no call and leaves the frame
    state alone. *)
Theorem X17_callback_life
  {rt : CRuntime} (glob : GlobVars) (xp xp' : XPlane) (cs : list ApiCall)
  (dr : DataRefs) (fs : FrameState) :
  let glob' := fst (api_run glob cs) in
  let t := snd (TwoDInit glob xp) ++ snd (api_run glob cs) in
  callback_state false (t ++ TwoDCleanup) = Some false /\
  snd (CPLabelDrawing glob' xp' dr fs) = 1 /\
  (callback_state false t = Some false ->
   fst (CPLabelDrawing glob' xp' dr fs) = (fs, [])).
Proof.
  intros glob' t.
  pose proof (init_api_callback_state glob xp cs) as Hc. fold t glob' in Hc.
  split; [ | split ].
  - rewrite callback_state_app, Hc. reflexivity.
  - reflexivity.
  - rewrite Hc. intros E. injection E as E.
    unfold CPLabelDrawing, TwoDDrawLabels. cbn [fst]. rewrite E. reflexivity.
Qed.

Lemma X17_callback_life_witness :
  fst (@CPLabelDrawing linux_x86_64
         (fst (api_run (demo_glob false SWITCH_CFG_AUTO []) [ApiEnable true; ApiDisable]))
         demo_xplane demo_datarefs demo_frame) = (demo_frame, []).
Proof.
  apply (@X17_callback_life linux_x86_64 (demo_glob false SWITCH_CFG_AUTO [])
           demo_xplane demo_xplane [ApiEnable true; ApiDisable] demo_datarefs demo_frame).
  reflexivity.
Defined.

(** ** The visibility cut-off *)

Lemma std_min_same (a : float) : std_min a a = a.
Proof. unfold std_min. rewrite f32_lt_irrefl. reflexivity. Qed.

(** [X11] Where the visibility comes from. After [TwoDInit] the pass
    reads the visibility from [sim/graphics/view/visibility_effective_m]
    when X-Plane has it and else from
    [sim/weather/visibility_effective_m], and only when the cut-off at
    visibility is configured. When the cut-off is not configured, or
    X-Plane has neither dataref, no visibility is read and the maximum
    label distance is the configured one times the zoom. *)
Theorem X11_visibility_source_and_fallback
  (glob : GlobVars) (xp : XPlane) (fs : FrameState) :
  let dr := fst (TwoDInit glob xp) in
  let graphics := "sim/graphics/view/visibility_effective_m"%string in
  let weather := "sim/weather/visibility_effective_m"%string in
  effectiveVisibility glob xp dr =
    (if bLabelCutOffAtVisibility glob
     then if xp_has_dataref xp graphics
          then (xp_dataf xp graphics, [XPLMGetDataf (Some graphics)])
          else if xp_has_dataref xp weather
               then (xp_dataf xp weather, [XPLMGetDataf (Some weather)])
               else (maxLabelDist glob, [])
     else (maxLabelDist glob, [])) /\
  (bLabelCutOffAtVisibility glob = false \/
   (xp_has_dataref xp graphics = false /\ xp_has_dataref xp weather = false) ->
   snd (fst (pass_setup glob xp dr fs)) = maxLabelDist glob |*| xp_camera_zoom xp /\
   existsb (fun h => match h with
                     | XPLMGetDataf (Some n) => String.eqb n graphics || String.eqb n weather
                     | _ => false
                     end) (snd (pass_setup glob xp dr fs)) = false).
Proof.
  intros dr graphics weather.
  assert (Heff : effectiveVisibility glob xp dr =
    (if bLabelCutOffAtVisibility glob
     then if xp_has_dataref xp graphics
          then (xp_dataf xp graphics, [XPLMGetDataf (Some graphics)])
          else if xp_has_dataref xp weather
               then (xp_dataf xp weather, [XPLMGetDataf (Some weather)])
               else (maxLabelDist glob, [])
     else (maxLabelDist glob, []))).
  { unfold effectiveVisibility, dr, TwoDInit, XPLMFindDataRef. cbn [fst drVisibility].
    fold graphics. fold weather.
    destruct (bLabelCutOffAtVisibility glob); [ | reflexivity ].
    destruct (xp_has_dataref xp graphics); [ reflexivity | ].
    destruct (xp_has_dataref xp weather); reflexivity. }
  split; [ exact Heff | ].
  intros Hcase.
  assert (Hnone : effectiveVisibility glob xp dr = (maxLabelDist glob, [])).
  { rewrite Heff. destruct Hcase as [-> | [-> ->]]; [ reflexivity | ].
    destruct (bLabelCutOffAtVisibility glob); reflexivity. }
  rewrite pass_setup_distance.
  unfold pass_setup, read_matrices. rewrite Hnone. cbn [fst snd].
  unfold labelDistance. rewrite std_min_same. split; [ reflexivity | ].
  unfold dr, TwoDInit, XPLMFindDataRef.
  cbn [fst drMatrixWrld drMatrixProj drScreenWidth drScreenHeight drFieldOfView].
  destruct (xp_has_dataref xp "sim/graphics/view/world_matrix"),
           (xp_has_dataref xp "sim/graphics/view/projection_matrix_3d"),
           (xp_has_dataref xp "sim/graphics/view/window_width"),
           (xp_has_dataref xp "sim/graphics/view/window_height"),
           (xp_has_dataref xp "sim/graphics/view/field_of_view_deg"); reflexivity.
Qed.

Lemma X11_visibility_source_and_fallback_witness :
  snd (fst (pass_setup (XPMPSetAircraftLabelDist (demo_glob true SWITCH_CFG_AUTO [])
                          (f32_of_int 5) false)
              demo_xplane
              (fst (TwoDInit (XPMPSetAircraftLabelDist (demo_glob true SWITCH_CFG_AUTO [])
                                (f32_of_int 5) false) demo_xplane))
              demo_frame)) =
  f32_of_int 9260 |*| f_1_0.
Proof.
  exact (proj1 (proj2
    (X11_visibility_source_and_fallback
       (XPMPSetAircraftLabelDist (demo_glob true SWITCH_CFG_AUTO []) (f32_of_int 5) false)
       demo_xplane demo_frame) (or_introl eq_refl))).
Defined.

(** ** The projection at its edges *)

Lemma f32_le_zero_minus_one (v : float) :
  f32_le f_0_0 v = true -> f32_le f_m1_0 v = true.
Proof. destruct v as [s | [ | ] | | [ | ] m e]; intros H; try discriminate; reflexivity. Qed.

(** [X12] The two backends differ in the flag only. The pixel
    coordinates of a point do not depend on the backend, and a point that
    is visible on the modern backend (depth in [[0,1]]) is visible on the
    legacy one (depth in [[-1,1]]). *)
Theorem X12_modern_range_within_legacy_range
  {rt : CRuntime} (fs : FrameState) (x y z : float) :
  out_x (ConvertTo2d true fs x y z) = out_x (ConvertTo2d false fs x y z) /\
  out_y (ConvertTo2d true fs x y z) = out_y (ConvertTo2d false fs x y z) /\
  (visible (ConvertTo2d true fs x y z) = true ->
   visible (ConvertTo2d false fs x y z) = true).
Proof.
  unfold ConvertTo2d. cbn [out_x out_y visible].
  generalize (ndc_coords fs x y z). intros n.
  split; [ reflexivity | ]. split; [ reflexivity | ].
  generalize (n.[2]). intros v.
  rewrite !andb_true_iff. intros [H0 H1]. split; [ | exact H1 ].
  apply f32_le_zero_minus_one. exact H0.
Qed.

Lemma X12_modern_range_within_legacy_range_witness :
  visible (@ConvertTo2d linux_x86_64 false demo_frame (f32_of_int (-47)) f_0_0 f_0_0) = true.
Proof.
  exact (proj2 (proj2 (@X12_modern_range_within_legacy_range linux_x86_64 demo_frame
                         (f32_of_int (-47)) f_0_0 f_0_0)) eq_refl).
Defined.

Lemma mul_by_infinity_not_in_range (c : float) (s modern : bool) :
  f32_le (clip_lo modern) (c |*| S754_infinity s) &&
  f32_le (c |*| S754_infinity s) (clip_hi modern) = false.
Proof.
  destruct c as [sc | sc | | sc mc ec], s, modern; try destruct sc; reflexivity.
Qed.

(** [X13] A zero divisor never yields a visible point. When the
    homogeneous [w'] of a point is zero (of either sign) or not a number,
    the projection reports the point as not visible, on both backends and
    whatever its other clip coordinates are. *)
Theorem X13_zero_divisor_is_not_visible
  {rt : CRuntime} (modern : bool) (fs : FrameState) (x y z : float) :
  (exists s, (clip_coords fs x y z).[3] = S754_zero s) \/
  is_nan (clip_coords fs x y z).[3] = true ->
  visible (ConvertTo2d modern fs x y z) = false.
Proof.
  intros Hw.
  assert (Hv : visible (ConvertTo2d modern fs x y z) =
               f32_le (clip_lo modern) (ndcZ fs x y z) &&
               f32_le (ndcZ fs x y z) (clip_hi modern))
    by (unfold ConvertTo2d, ndcZ, clip_lo, clip_hi; cbn [visible];
        generalize (ndc_coords fs x y z); intros n; destruct modern; reflexivity).
  rewrite Hv. unfold ndcZ. rewrite ndc_coords_clip. cbv zeta.
  change ([?a; ?b; ?c; ?d].[2]) with c.
  generalize ((clip_coords fs x y z).[2]). intros c.
  destruct Hw as [[s ->] | Hn].
  - change (f_1_0 |/| S754_zero s) with (S754_infinity (xorb false s)).
    apply mul_by_infinity_not_in_range.
  - destruct ((clip_coords fs x y z).[3]); try discriminate.
    change (f_1_0 |/| S754_nan) with S754_nan.
    destruct c, modern; reflexivity.
Qed.

Lemma X13_zero_divisor_is_not_visible_witness :
  visible (@ConvertTo2d linux_x86_64 false
             {| gMatrixWrld := identity4;
                gMatrixProj := [ f_1; f_0; f_0; f_0;
                                 f_0; f_1; f_0; f_0;
                                 f_0; f_0; f_1; f_0;
                                 f_0; f_0; f_0; f_0 ];
                gScreenW := f32_of_int 800; gScreenH := f32_of_int 600;
                gFOV := f32_of_int 60 |}
             (f32_of_int 3) f_0_0 f_1_0) = false.
Proof.
  apply (@X13_zero_divisor_is_not_visible linux_x86_64 false).
  left. exists false. vm_compute. reflexivity.
Defined.

(* ================================================================== *)
(** * Rounding to binary32, and the pixel of a point *)
(* ================================================================== *)

(** ** Binary32 data are closed under rounding *)

Lemma digits2_pos_unique (p : positive) (n : Z) :
  2 ^ (n - 1) <= Zpos p < 2 ^ n -> Zpos (digits2_pos p) = n.
Proof.
  intros [Hlo Hhi].
  pose proof (digits2_pos_bounds p) as [Dlo Dhi].
  pose proof (Pos2Z.is_pos (digits2_pos p)) as Hd.
  pose proof (Pos2Z.is_pos p) as Hp.
  set (d := Zpos (digits2_pos p)) in *. clearbody d.
  assert (0 < n).
  { destruct (Z.le_gt_cases n 0) as [Hn | Hn]; [ | exact Hn ].
    assert (2 ^ n <= 2 ^ 0) by (destruct (Z.eq_dec n 0) as [-> | ];
      [ lia | rewrite Z.pow_neg_r by lia; cbn; lia ]).
    change (2 ^ 0) with 1 in *. lia. }
  assert (d - 1 < n) by (apply pow2_lt_inv; lia).
  assert (n - 1 < d) by (apply pow2_lt_inv; lia).
  lia.
Qed.

Lemma finalize_rne_valid (s : bool) (m : positive) (e : Z) :
  e <= fexp 24 128 (Zpos (digits2_pos m) + e) ->
  valid_binary 24 128
    (finalize s (rne (Zpos m) (fexp 24 128 (Zpos (digits2_pos m) + e) - e))
                (fexp 24 128 (Zpos (digits2_pos m) + e))) = true.
Proof.
  intros Hsh.
  pose proof (digits2_pos_bounds m) as [Hlo Hhi].
  pose proof (Pos2Z.is_pos (digits2_pos m)) as Hdpos.
  pose proof (Pos2Z.is_pos m) as Hmpos.
  set (d := Zpos (digits2_pos m)) in *.
  set (t := fexp 24 128 (d + e)) in *.
  assert (Et : t = Z.max (d + e - 24) (-149)) by reflexivity.
  set (M := Zpos m) in *. clearbody t d M.
  assert (Hb : 0 <= rne M (t - e) <= 2 ^ 24).
  { apply rne_bounds; try lia. split; [ lia | ].
    eapply Z.lt_le_trans; [ exact Hhi | ]. apply pow2_le. lia. }
  unfold finalize.
  destruct (rne M (t - e)) as [ | p | p] eqn:Hr; try reflexivity; try lia.
  destruct (Z.ltb_spec (Zpos p) (2 ^ 24)) as [Hlt | Hge].
  - destruct (Z.leb_spec t 104) as [Ht | Ht]; [ | reflexivity ].
    cbn [valid_binary]. unfold bounded, canonical_mantissa.
    apply andb_true_iff. split; [ | apply Z.leb_le; exact Ht ].
    apply Z.eqb_eq. rewrite fexp32.
    pose proof (digits_le_24 p Hlt) as Hd24.
    pose proof (Pos2Z.is_pos (digits2_pos p)) as Hdp.
    destruct (Z.eq_dec t (-149)) as [E | NE]; [ lia | ].
    assert (Hn : 2 ^ 23 <= Zpos p).
    { rewrite <- Hr. apply rne_lower; try lia.
      replace (t - e + 23) with (d - 1) by lia. exact Hlo. }
    assert (Zpos (digits2_pos p) = 24) by (apply digits2_pos_unique; split; assumption).
    lia.
  - destruct (Z.leb_spec (t + 1) 104) as [Ht | Ht]; [ | reflexivity ].
    cbn [valid_binary]. unfold bounded, canonical_mantissa.
    apply andb_true_iff. split; [ | apply Z.leb_le; exact Ht ].
    apply Z.eqb_eq. rewrite fexp32.
    change (Zpos (digits2_pos 8388608)) with 24. lia.
Qed.

Lemma SFmul_valid (x y : float) :
  valid_binary 24 128 x = true -> valid_binary 24 128 y = true ->
  valid_binary 24 128 (SFmul 24 128 x y) = true.
Proof.
  intros Hx Hy.
  destruct x as [sx | sx | | sx mx ex], y as [sy | sy | | sy my ey]; try reflexivity.
  cbn [SFmul]. cbn [valid_binary] in Hx, Hy.
  rewrite binary_round_aux_exact by (apply mul_shift_ok; assumption).
  apply finalize_rne_valid. apply mul_shift_ok; assumption.
Qed.

Lemma pos_iter_xO (m d : positive) : Zpos (Pos.iter xO m d) = Zpos m * 2 ^ Zpos d.
Proof.
  induction d as [ | d IH] using Pos.peano_ind.
  - cbn [Pos.iter]. rewrite (Pos2Z.inj_xO m). change (2 ^ 1) with 2. lia.
  - rewrite Pos.iter_succ, (Pos2Z.inj_xO (Pos.iter xO m d)), IH, Pos2Z.inj_succ.
    rewrite Z.pow_succ_r by lia. lia.
Qed.

Lemma digits2_pos_shift (m mz : positive) (j : Z) :
  0 <= j -> Zpos mz = Zpos m * 2 ^ j ->
  Zpos (digits2_pos mz) = Zpos (digits2_pos m) + j.
Proof.
  intros Hj E.
  pose proof (digits2_pos_bounds m) as [Hlo Hhi].
  pose proof (Pos2Z.is_pos (digits2_pos m)) as Hd.
  pose proof (pow2_pos j Hj) as Hp.
  apply digits2_pos_unique. rewrite E.
  replace (Zpos (digits2_pos m) + j - 1) with (Zpos (digits2_pos m) - 1 + j) by lia.
  rewrite !Z.pow_add_r by lia.
  set (d := Zpos (digits2_pos m)) in *. clearbody d.
  split; [ apply Z.mul_le_mono_nonneg_r; lia | apply Z.mul_lt_mono_pos_r; lia ].
Qed.

(** [binary_round] of [m * 2^e]: the mantissa is first aligned on the
    target exponent when it is too short. *)
Lemma binary_round_aligned (s : bool) (m : positive) (e : Z) :
  exists (mz : positive) (ez : Z),
    ez = Z.min e (fexp 24 128 (Zpos (digits2_pos m) + e)) /\
    Zpos mz = Zpos m * 2 ^ (e - ez) /\
    Zpos (digits2_pos mz) + ez = Zpos (digits2_pos m) + e /\
    binary_round 24 128 s m e = binary_round_aux 24 128 s (Zpos mz) ez loc_Exact.
Proof.
  unfold binary_round, shl_align.
  set (t := fexp 24 128 (Zpos (digits2_pos m) + e)).
  destruct (t - e) as [ | p | p] eqn:Hk.
  - exists m, e. split; [ lia | ]. split; [ rewrite Z.sub_diag; cbn; lia | ].
    split; reflexivity.
  - exists m, e. split; [ lia | ]. split; [ rewrite Z.sub_diag; cbn; lia | ].
    split; reflexivity.
  - exists (Pos.iter xO m p), t. split; [ lia | ].
    assert (Hmz : Zpos (Pos.iter xO m p) = Zpos m * 2 ^ (e - t)).
    { rewrite pos_iter_xO. f_equal. f_equal. lia. }
    split; [ exact Hmz | ].
    assert (Hdz : Zpos (digits2_pos (Pos.iter xO m p)) = Zpos (digits2_pos m) + (e - t))
      by (apply digits2_pos_shift; [ lia | exact Hmz ]).
    split; [ lia | reflexivity ].
Qed.

Lemma binary_round_exact (s : bool) (m : positive) (e : Z) :
  exists (mz : positive) (ez : Z),
    ez = Z.min e (fexp 24 128 (Zpos (digits2_pos m) + e)) /\
    Zpos mz = Zpos m * 2 ^ (e - ez) /\
    Zpos (digits2_pos mz) + ez = Zpos (digits2_pos m) + e /\
    binary_round 24 128 s m e = binary_round_aux 24 128 s (Zpos mz) ez loc_Exact /\
    ez <= fexp 24 128 (Zpos (digits2_pos mz) + ez) /\
    binary_round 24 128 s m e =
    finalize s (rne (Zpos mz) (fexp 24 128 (Zpos (digits2_pos m) + e) - ez))
               (fexp 24 128 (Zpos (digits2_pos m) + e)) /\
    valid_binary 24 128 (binary_round 24 128 s m e) = true.
Proof.
  destruct (binary_round_aligned s m e) as (mz & ez & Hez & Hmz & Hdz & Hbr).
  exists mz, ez.
  assert (Hsh : ez <= fexp 24 128 (Zpos (digits2_pos mz) + ez)) by (rewrite Hdz; lia).
  repeat (split; [ assumption | ]).
  rewrite Hbr, binary_round_aux_exact by exact Hsh. rewrite Hdz.
  split; [ reflexivity | ].
  rewrite <- Hdz. apply finalize_rne_valid. exact Hsh.
Qed.

(** ** Integers survive the conversion to binary32 *)

Lemma rne_0 (M : Z) : rne M 0 = M.
Proof.
  unfold rne. rewrite Z.pow_0_r, Z.div_1_r, Z.mod_1_r. reflexivity.
Qed.

Lemma binary_round_small_int (s : bool) (m : positive) :
  Zpos m < 2 ^ 24 ->
  exists (mz : positive) (t : Z),
    binary_round 24 128 s m 0 = S754_finite s mz t /\
    -23 <= t <= 0 /\ Zpos mz = Zpos m * 2 ^ (- t) /\
    bounded 24 128 mz t = true.
Proof.
  intros Hm.
  destruct (binary_round_exact s m 0) as (mz & ez & Hez & Hmz & Hdz & _ & _ & Hbr & Hval).
  pose proof (digits_le_24 m Hm) as Hd.
  pose proof (Pos2Z.is_pos (digits2_pos m)) as Hdpos.
  rewrite Z.add_0_r in *. rewrite fexp32 in *.
  set (d := Zpos (digits2_pos m)) in *.
  assert (Et : Z.max (d - 24) (-149) = d - 24) by lia.
  rewrite Et in *.
  assert (Eez : ez = d - 24) by lia. clear Hez. subst ez.
  rewrite Z.sub_diag, rne_0 in Hbr.
  assert (Hlt : Zpos mz < 2 ^ 24).
  { pose proof (digits2_pos_bounds mz) as [_ Hhi].
    eapply Z.lt_le_trans; [ exact Hhi | ]. apply pow2_le.
    pose proof (Pos2Z.is_pos (digits2_pos mz)). lia. }
  unfold finalize in Hbr.
  destruct (Z.ltb_spec (Zpos mz) (2 ^ 24)) as [_ | Hge]; [ | lia ].
  destruct (Z.leb_spec (d - 24) 104) as [_ | Hgt]; [ | lia ].
  exists mz, (d - 24). split; [ exact Hbr | ]. split; [ lia | ].
  split; [ rewrite Hmz; f_equal; f_equal; lia | ].
  rewrite Hbr in Hval. exact Hval.
Qed.

Lemma integer_of_shifted (s : bool) (m mz : positive) (t : Z) :
  t <= 0 -> Zpos mz = Zpos m * 2 ^ (- t) ->
  truncate (S754_finite s mz t) = Some (if s then - Zpos m else Zpos m) /\
  nearest_away (S754_finite s mz t) = Some (if s then - Zpos m else Zpos m).
Proof.
  intros Ht E. unfold truncate, nearest_away.
  destruct t as [ | p | p]; try lia.
  - change (- 0) with 0 in E. rewrite Z.pow_0_r, Z.mul_1_r in *. rewrite E. split; reflexivity.
  - change (- Zneg p) with (Zpos p) in E. rewrite E.
    pose proof (pow2_pos (Zpos p) ltac:(lia)) as Hp.
    rewrite Z.div_mul by lia.
    replace ((Zpos m * 2 ^ Zpos p + 2 ^ (Zpos p - 1)) / 2 ^ Zpos p) with (Zpos m).
    + split; reflexivity.
    + apply Z.div_unique with (2 ^ (Zpos p - 1)); [ | lia ].
      left. split; [ apply Z.pow_nonneg; lia | ].
      apply Z.pow_lt_mono_r; lia.
Qed.

Lemma f32_of_int_exact (n : Z) :
  - 2 ^ 24 <= n <= 2 ^ 24 ->
  truncate (f32_of_int n) = Some n /\
  nearest_away (f32_of_int n) = Some n /\
  is_binary32 (f32_of_int n) = true.
Proof.
  intros Hn. unfold f32_of_int, is_binary32, binary_normalize, prec32, emax32.
  destruct n as [ | m | m].
  - repeat split; reflexivity.
  - destruct (Z.eq_dec (Zpos m) (2 ^ 24)) as [E | NE].
    + assert (m = 16777216%positive) by lia. subst m. repeat split; reflexivity.
    + destruct (binary_round_small_int false m ltac:(lia)) as (mz & t & -> & Ht & Hmz & Hb).
      destruct (integer_of_shifted false m mz t ltac:(lia) Hmz) as [-> ->].
      repeat split. exact Hb.
  - destruct (Z.eq_dec (Zpos m) (2 ^ 24)) as [E | NE].
    + assert (m = 16777216%positive) by lia. subst m. repeat split; reflexivity.
    + destruct (binary_round_small_int true m ltac:(lia)) as (mz & t & -> & Ht & Hmz & Hb).
      destruct (integer_of_shifted true m mz t ltac:(lia) Hmz) as [-> ->].
      repeat split. exact Hb.
Qed.

(** ** From normalised device coordinates to pixels *)

Lemma binary_round_aux_abs (s : bool) (m e : Z) (l : location) :
  SFabs (binary_round_aux 24 128 s m e l) = binary_round_aux 24 128 false m e l.
Proof.
  unfold binary_round_aux.
  destruct (shr_fexp 24 128 m e l) as [mrs' e'].
  destruct (shr_fexp 24 128 (round_nearest_even (shr_m mrs') (loc_of_shr_record mrs')) e'
              loc_Exact) as [mrs'' e''].
  destruct (shr_m mrs'') as [ | p | p]; try reflexivity.
  destruct (e'' <=? 128 - 24); reflexivity.
Qed.

Lemma SFmul_abs_l (x : float) (my : positive) (ey : Z) :
  SFabs (SFmul 24 128 x (S754_finite false my ey)) =
  SFmul 24 128 (SFabs x) (S754_finite false my ey).
Proof.
  destruct x as [sx | sx | | sx mx ex]; cbn [SFmul SFabs xorb]; try reflexivity.
  apply binary_round_aux_abs.
Qed.

Lemma nonneg_finite_valid (x : float) : nonneg_finite x = true -> is_binary32 x = true.
Proof. destruct x as [s | s | | [ | ] m e]; intros H; try discriminate; [ reflexivity | exact H ]. Qed.

(** A number between -1 and 1 has a magnitude of at most 1. *)
Lemma SFleb_neg_neg (m1 m2 : positive) (e1 e2 : Z) :
  SFleb (S754_finite true m1 e1) (S754_finite true m2 e2) =
  SFleb (S754_finite false m2 e2) (S754_finite false m1 e1).
Proof.
  unfold SFleb, SFcompare.
  rewrite (Z.compare_antisym e1 e2).
  destruct (e1 ?= e2); cbn [CompOpp]; try reflexivity.
  rewrite (Pos.compare_cont_antisym m1 m2 Eq). reflexivity.
Qed.

Lemma abs_le_one (n : float) :
  is_binary32 n = true ->
  f32_le f_m1_0 n = true -> f32_le n f_1_0 = true ->
  nonneg_finite (SFabs n) = true /\ f32_le (SFabs n) f_1_0 = true.
Proof.
  intros Hv Hlo Hhi.
  destruct n as [s | [ | ] | | [ | ] m e]; try discriminate.
  - split; reflexivity.
  - split; [ exact Hv | ].
    unfold f32_le, f_m1_0 in Hlo. rewrite SFleb_neg_neg in Hlo. exact Hlo.
  - split; [ exact Hv | exact Hhi ].
Qed.

Lemma SFmul_one_r (x : float) :
  nonneg_finite x = true -> SFmul 24 128 x f_1_0 = x.
Proof.
  destruct x as [s | s | | [ | ] m e]; intros H; try discriminate.
  - destruct s; reflexivity.
  - cbn [nonneg_finite] in H. unfold f_1_0. cbn [SFmul xorb].
    assert (Hone : bounded 24 128 8388608 (-23) = true) by reflexivity.
    rewrite binary_round_aux_exact by (apply mul_shift_ok; assumption).
    destruct (bounded_canonical m e H) as [Hcan He].
    pose proof (Pos2Z.is_pos (digits2_pos m)) as Hdpos.
    assert (Hd : Zpos (digits2_pos (m * 8388608)) = Zpos (digits2_pos m) + 23).
    { apply digits2_pos_shift; [ lia | ]. rewrite Pos2Z.inj_mul. reflexivity. }
    rewrite Hd.
    replace (Zpos (digits2_pos m) + 23 + (e + -23)) with (Zpos (digits2_pos m) + e) by lia.
    rewrite Hcan.
    replace (e - (e + -23)) with (0 + 23) by lia.
    rewrite Pos2Z.inj_mul. change (Zpos 8388608) with (2 ^ 23).
    rewrite rne_scale, rne_0 by lia.
    unfold finalize.
    assert (Hlt : Zpos m < 2 ^ 24).
    { pose proof (digits2_pos_bounds m) as [_ Hhi].
      eapply Z.lt_le_trans; [ exact Hhi | ]. apply pow2_le.
      rewrite fexp32 in Hcan. lia. }
    destruct (Z.ltb_spec (Zpos m) (2 ^ 24)); [ | lia ].
    destruct (Z.leb_spec e 104); [ reflexivity | lia ].
Qed.

(** The shapes a rounded non-negative value can take. *)
Lemma finalize_false_shape (M t : Z) :
  0 <= M ->
  finalize false M t = S754_zero false \/
  (exists p t', finalize false M t = S754_finite false p t') \/
  finalize false M t = S754_infinity false.
Proof.
  intros HM. unfold finalize. destruct M as [ | p | p]; try lia.
  - left. reflexivity.
  - destruct (Zpos p <? 2 ^ 24), (t <=? 104), (t + 1 <=? 104);
      try (right; right; reflexivity); right; left; eexists; eexists; reflexivity.
Qed.

Lemma SFmul_nonneg_shape (a b : float) :
  nonneg_finite a = true -> nonneg_finite b = true ->
  (exists s, SFmul 24 128 a b = S754_zero s) \/
  (exists p t', SFmul 24 128 a b = S754_finite false p t') \/
  SFmul 24 128 a b = S754_infinity false.
Proof.
  intros Ha Hb.
  destruct a as [sa | | | [ | ] ma ea], b as [sb | | | [ | ] mb eb]; try discriminate;
    cbn [SFmul xorb]; try (left; eexists; reflexivity).
  cbn [nonneg_finite] in Ha, Hb.
  rewrite binary_round_aux_exact by (apply mul_shift_ok; assumption).
  pose proof (mul_shift_ok ma mb ea eb Ha Hb) as Hsh.
  destruct (finalize_false_shape
              (rne (Zpos (ma * mb))
                 (fexp 24 128 (Zpos (digits2_pos (ma * mb)) + (ea + eb)) - (ea + eb)))
              (fexp 24 128 (Zpos (digits2_pos (ma * mb)) + (ea + eb))))
    as [-> | [(p & t' & ->) | ->]].
  - apply rne_nonneg; lia.
  - left. eexists. reflexivity.
  - right. left. eexists. eexists. reflexivity.
  - right. right. reflexivity.
Qed.

(** A product of non-negative numbers that is at most a finite number is
    a non-negative binary32 number. *)
Lemma SFmul_nonneg_bounded (a b c : float) :
  nonneg_finite a = true -> nonneg_finite b = true -> nonneg_finite c = true ->
  f32_le (SFmul 24 128 a b) c = true ->
  nonneg_finite (SFmul 24 128 a b) = true.
Proof.
  intros Ha Hb Hc Hle.
  pose proof (SFmul_valid a b (nonneg_finite_valid a Ha) (nonneg_finite_valid b Hb)) as Hv.
  destruct (SFmul_nonneg_shape a b Ha Hb) as [[s E] | [(p & t' & E) | E]];
    rewrite E in *.
  - reflexivity.
  - exact Hv.
  - destruct c as [sc | sc | | [ | ] mc ec]; discriminate.
Qed.

Lemma half_of_unit (n : float) :
  is_binary32 n = true ->
  f32_le f_m1_0 n = true -> f32_le n f_1_0 = true ->
  is_binary32 (n |*| f_0_5) = true /\
  f32_le (SFabs (n |*| f_0_5)) f_0_5 = true.
Proof.
  intros Hv Hlo Hhi.
  destruct (abs_le_one n Hv Hlo Hhi) as [Hnn Hle].
  split.
  - apply SFmul_valid; [ exact Hv | reflexivity ].
  - unfold f32_mul, f_0_5, prec32, emax32. rewrite SFmul_abs_l.
    replace (S754_finite false 8388608 (-24))
      with (SFmul 24 128 f_1_0 (S754_finite false 8388608 (-24))) at 2
      by (vm_compute; reflexivity).
    apply SFmul_mono_l; try assumption; reflexivity.
Qed.

Lemma shl_align_fst (mx : positive) (ex ex' : Z) :
  ex' <= ex -> Zpos (fst (shl_align mx ex ex')) = Zpos mx * 2 ^ (ex - ex').
Proof.
  intros H. unfold shl_align.
  destruct (ex' - ex) as [ | p | p] eqn:E; cbn [fst]; try lia.
  - replace (ex - ex') with 0 by lia. cbn. lia.
  - rewrite pos_iter_xO. f_equal. f_equal. lia.
Qed.

Lemma rounded_le_one_nonneg (x : float) :
  is_binary32 x = true ->
  (x = S754_zero false \/ (exists p t, x = S754_finite false p t) \/ x = S754_infinity false) ->
  f32_le x f_1_0 = true ->
  nonneg_finite x = true.
Proof.
  intros Hv [-> | [(p & t & ->) | ->]] Hle; [ reflexivity | exact Hv | discriminate ].
Qed.

(** Adding one half to a number of magnitude at most one half gives a
    number between 0 and 1. *)
Lemma add_half_in_unit (r : float) :
  is_binary32 r = true ->
  f32_le (SFabs r) f_0_5 = true ->
  nonneg_finite (r |+| f_0_5) = true /\ f32_le (r |+| f_0_5) f_1_0 = true.
Proof.
  intros Hv Hle.
  destruct r as [s | s | | s m e]; try discriminate.
  - split; reflexivity.
  - cbn [is_binary32 valid_binary] in Hv. unfold is_binary32, prec32, emax32 in Hv.
    cbn [valid_binary] in Hv.
    destruct (SFleb_finite_value m 8388608 e (-24) Hv eq_refl Hle) as [He Hm].
    unfold f32_add, f_0_5, prec32, emax32. cbn [SFadd].
    replace (Z.min e (-24)) with e by lia.
    rewrite (shl_align_fst m e e) by lia.
    rewrite (shl_align_fst 8388608 (-24) e) by lia.
    rewrite Z.sub_diag, Z.pow_0_r, Z.mul_1_r.
    change (cond_Zopp false ?z) with z.
    pose proof (Pos2Z.is_pos m) as Hmpos.
    pose proof (pow2_pos (-24 - e) ltac:(lia)) as Hp.
    set (B := Zpos 8388608 * 2 ^ (-24 - e)) in *.
    assert (HS : 0 <= cond_Zopp s (Zpos m) + B <= 2 * B)
      by (destruct s; cbn [cond_Zopp]; lia).
    destruct (cond_Zopp s (Zpos m) + B) as [ | q | q] eqn:ES; try lia.
    + split; reflexivity.
    + cbn [binary_normalize].
      destruct (binary_round_exact false q e)
        as (mz & ez & Hez & Hmz & Hdz & Hbra & Hsh & Hfin & Hval).
      assert (Hle1 : f32_le (binary_round 24 128 false q e) f_1_0 = true).
      { rewrite Hbra.
        replace f_1_0 with (binary_round_aux 24 128 false (Zpos 8388608) (-23) loc_Exact)
          by (vm_compute; reflexivity).
        apply binary_round_aux_mono; try assumption; try lia.
        - vm_compute. discriminate.
        - rewrite Hmz.
          assert (Hb : 0 <= e - ez) by lia.
          pose proof (pow2_pos (e - ez) Hb) as Hpb.
          replace (-23 - ez) with ((-24 - e) + (e - ez) + 1) by lia.
          rewrite !Z.pow_add_r by lia. change (2 ^ 1) with 2.
          unfold B in HS.
          set (P := 2 ^ (-24 - e)) in *. set (Q := 2 ^ (e - ez)) in *.
          clearbody P Q. nia. }
      split; [ | exact Hle1 ].
      apply rounded_le_one_nonneg; [ exact Hval | | exact Hle1 ].
      rewrite Hfin. apply finalize_false_shape.
      apply rne_nonneg; lia.
Qed.

(** [nearest_away] grows with its argument. *)
Lemma nearest_away_mono (a b : float) :
  nonneg_finite a = true -> nonneg_finite b = true ->
  f32_le a b = true ->
  exists ia ib, nearest_away a = Some ia /\ nearest_away b = Some ib /\ 0 <= ia <= ib.
Proof.
  intros Ha Hb Hle.
  destruct a as [sa | | | [ | ] ma ea]; try discriminate;
  destruct b as [sb | | | [ | ] mb eb]; try discriminate.
  - exists 0, 0. repeat split; lia.
  - cbn [nearest_away]. eexists 0, _. split; [ reflexivity | ]. split; [ reflexivity | ].
    split; [ lia | ].
    destruct eb as [ | p | p].
    + lia.
    + pose proof (pow2_pos (Zpos p) ltac:(lia)). lia.
    + apply Z.div_pos; [ | apply pow2_pos; lia ].
      pose proof (pow2_pos (Zpos p - 1) ltac:(lia)). lia.
  - cbn [nonneg_finite] in Ha, Hb.
    destruct (SFleb_finite_value ma mb ea eb Ha Hb Hle) as [He Hm].
    cbn [nearest_away]. eexists _, _. split; [ reflexivity | ]. split; [ reflexivity | ].
    pose proof (Pos2Z.is_pos ma) as Hma. pose proof (Pos2Z.is_pos mb) as Hmb.
    pose proof (pow2_pos (eb - ea) ltac:(lia)) as Hpd.
    destruct ea as [ | pa | pa].
    + (* ea = 0 *)
      destruct eb as [ | pb | pb]; try lia.
      all: rewrite Z.sub_0_r in Hm; change (2 ^ 0) with 1; lia.
    + (* ea > 0 *)
      destruct eb as [ | pb | pb]; try lia.
      pose proof (pow2_pos (Zpos pa) ltac:(lia)) as Hpa.
      split; [ lia | ].
      assert (E : 2 ^ Zpos pb = 2 ^ (Zpos pb - Zpos pa) * 2 ^ Zpos pa)
        by (rewrite <- Z.pow_add_r by lia; f_equal; lia).
      rewrite E.
      set (P := 2 ^ (Zpos pb - Zpos pa)) in *. set (Q := 2 ^ Zpos pa) in *.
      clearbody P Q. nia.
    + (* ea < 0 *)
      pose proof (pow2_pos (Zpos pa) ltac:(lia)) as Hpa.
      pose proof (pow2_pos (Zpos pa - 1) ltac:(lia)) as Hpa1.
      split; [ apply Z.div_pos; lia | ].
      destruct eb as [ | pb | pb].
      * (* eb = 0 *)
        change (0 - Zneg pa) with (Zpos pa) in Hm.
        change (2 ^ 0) with 1. rewrite Z.mul_1_r.
        assert (2 ^ (Zpos pa - 1) < 2 ^ Zpos pa) by (apply Z.pow_lt_mono_r; lia).
        assert (Zpos ma + 2 ^ (Zpos pa - 1) < 2 ^ Zpos pa * (Zpos mb + 1)) by nia.
        apply Z.lt_succ_r.
        apply Z.div_lt_upper_bound; lia.
      * (* eb > 0 *)
        change (Zpos pb - Zneg pa) with (Zpos pb + Zpos pa) in Hm.
        rewrite Z.pow_add_r in Hm by lia.
        pose proof (pow2_pos (Zpos pb) ltac:(lia)) as Hpb.
        assert (2 ^ (Zpos pa - 1) < 2 ^ Zpos pa) by (apply Z.pow_lt_mono_r; lia).
        apply Z.lt_succ_r.
        apply Z.div_lt_upper_bound; [ lia | ].
        set (P := 2 ^ Zpos pb) in *. set (Q := 2 ^ Zpos pa) in *.
        set (R := 2 ^ (Zpos pa - 1)) in *. clearbody P Q R. nia.
      * (* eb < 0 *)
        change (Zneg pb - Zneg pa) with (Zpos pa - Zpos pb) in *.
        pose proof (pow2_pos (Zpos pb) ltac:(lia)) as Hpb.
        assert (Hsplit : 2 ^ Zpos pa = 2 ^ Zpos pb * 2 ^ (Zpos pa - Zpos pb)).
        { rewrite <- Z.pow_add_r by lia. f_equal. lia. }
        assert (Hsplit1 : 2 ^ (Zpos pa - 1) = 2 ^ (Zpos pb - 1) * 2 ^ (Zpos pa - Zpos pb)).
        { rewrite <- Z.pow_add_r by lia. f_equal. lia. }
        rewrite <- (Z.div_mul_cancel_r (Zpos mb + 2 ^ (Zpos pb - 1)) (2 ^ Zpos pb)
                      (2 ^ (Zpos pa - Zpos pb))) by lia.
        rewrite <- Hsplit.
        apply Z.div_le_mono; [ lia | ].
        rewrite Hsplit1. nia.
Qed.

Lemma f32_of_int_nonneg (n : Z) :
  0 <= n <= 2 ^ 24 -> nonneg_finite (f32_of_int n) = true.
Proof.
  intros Hn. unfold f32_of_int, binary_normalize, prec32, emax32.
  destruct n as [ | m | m]; try lia.
  - reflexivity.
  - destruct (Z.eq_dec (Zpos m) (2 ^ 24)) as [E | NE].
    + assert (m = 16777216%positive) by lia. subst m. reflexivity.
    + destruct (binary_round_small_int false m ltac:(lia)) as (mz & t & -> & Ht & Hmz & Hb).
      exact Hb.
Qed.

Lemma pixel_within_size {rt : CRuntime} (size : Z) (ndc : float) :
  32 <= long_bits ->
  0 <= size <= 2 ^ 24 ->
  is_binary32 ndc = true ->
  f32_le f_m1_0 ndc = true -> f32_le ndc f_1_0 = true ->
  0 <= pixel (f32_of_int size) ndc <= size.
Proof.
  intros Hlong Hsize Hv Hlo Hhi. unfold pixel.
  destruct (half_of_unit ndc Hv Hlo Hhi) as [Hrv Hrle].
  destruct (add_half_in_unit (ndc |*| f_0_5) Hrv Hrle) as [Hhn Hh1].
  set (hh := ndc |*| f_0_5 |+| f_0_5) in *.
  pose proof (f32_of_int_nonneg size Hsize) as HW.
  destruct (f32_of_int_exact size ltac:(lia)) as (_ & HWn & _).
  set (W := f32_of_int size) in *.
  assert (HvW : f32_le (W |*| hh) W = true).
  { rewrite <- (SFmul_one_r W HW) at 2.
    apply f32_mul_mono_r; try assumption; reflexivity. }
  assert (Hvn : nonneg_finite (W |*| hh) = true)
    by (apply (SFmul_nonneg_bounded W hh W); assumption).
  destruct (nearest_away_mono (W |*| hh) W Hvn HW HvW) as (iv & iw & Hiv & Hiw & Hle).
  rewrite HWn in Hiw. injection Hiw as <-.
  unfold lround, int_of_long. rewrite Hiv.
  assert (Hp : 2 ^ 31 <= 2 ^ (long_bits - 1)) by (apply pow2_le; lia).
  change (2 ^ 31) with 2147483648 in Hp. change (2 ^ 24) with 16777216 in *.
  destruct (Z.leb_spec (- 2 ^ (long_bits - 1)) iv);
    destruct (Z.ltb_spec iv (2 ^ (long_bits - 1))); try lia.
  cbn [andb]. rewrite wrap_int_id by (apply in_int_range_iff; lia). lia.
Qed.

(** [X14] For a window of at most [2^24] pixels each way, a point whose
    normalised device coordinates [x] and [y] lie between -1 and 1 is
    projected to a pixel inside the window: [0 <= out_x <= width] and
    [0 <= out_y <= height]. *)
Theorem X14_pixel_inside_the_window
  {rt : CRuntime} (modern : bool) (fs : FrameState) (x y z : float) (width height : Z) :
  32 <= long_bits ->
  0 <= width <= 2 ^ 24 -> 0 <= height <= 2 ^ 24 ->
  gScreenW fs = f32_of_int width -> gScreenH fs = f32_of_int height ->
  is_binary32 (ndc_coords fs x y z).[0] = true ->
  is_binary32 (ndc_coords fs x y z).[1] = true ->
  f32_le f_m1_0 (ndc_coords fs x y z).[0] = true ->
  f32_le (ndc_coords fs x y z).[0] f_1_0 = true ->
  f32_le f_m1_0 (ndc_coords fs x y z).[1] = true ->
  f32_le (ndc_coords fs x y z).[1] f_1_0 = true ->
  0 <= out_x (ConvertTo2d modern fs x y z) <= width /\
  0 <= out_y (ConvertTo2d modern fs x y z) <= height.
Proof.
  intros Hlong Hw Hh HW HH Hvx Hvy Hxlo Hxhi Hylo Hyhi.
  unfold ConvertTo2d. cbn [out_x out_y]. rewrite HW, HH.
  split.
  - exact (pixel_within_size width _ Hlong Hw Hvx Hxlo Hxhi).
  - exact (pixel_within_size height _ Hlong Hh Hvy Hylo Hyhi).
Qed.

Lemma X14_pixel_inside_the_window_witness :
  0 <= out_x (@ConvertTo2d linux_x86_64 true demo_frame (f32_of_int (-47)) f_0_0 f_0_0) <= 800 /\
  0 <= out_y (@ConvertTo2d linux_x86_64 true demo_frame (f32_of_int (-47)) f_0_0 f_0_0) <= 600.
Proof.
  apply (@X14_pixel_inside_the_window linux_x86_64 true demo_frame
           (f32_of_int (-47)) f_0_0 f_0_0 800 600);
    try reflexivity; vm_compute; try split; discriminate.
Defined.

(** [X15] The window size survives the conversion to [float]. For a
    window of at most [2^24] pixels each way, the width and height that
    [read_matrices] keeps as [float] are binary32 numbers that convert
    back to the very integers X-Plane reported. *)
Theorem X15_window_size_is_kept_exactly
  {rt : CRuntime} (xp : XPlane) (dr : DataRefs) (fs : FrameState) :
  0 <= GetDatai xp (drScreenWidth dr) <= 2 ^ 24 ->
  0 <= GetDatai xp (drScreenHeight dr) <= 2 ^ 24 ->
  let fs' := fst (read_matrices xp dr fs) in
  int_of_float (gScreenW fs') = GetDatai xp (drScreenWidth dr) /\
  int_of_float (gScreenH fs') = GetDatai xp (drScreenHeight dr) /\
  nonneg_finite (gScreenW fs') = true /\ nonneg_finite (gScreenH fs') = true.
Proof.
  intros Hw Hh fs'.
  assert (Hi : forall n, 0 <= n <= 2 ^ 24 -> int_of_float (f32_of_int n) = n).
  { intros n Hn. destruct (f32_of_int_exact n ltac:(lia)) as (Ht & _ & _).
    unfold int_of_float. rewrite Ht.
    replace (in_int_range n) with true; [ reflexivity | ].
    symmetry. apply in_int_range_iff. change (2 ^ 24) with 16777216 in Hn. lia. }
  unfold fs', read_matrices. cbn [fst gScreenW gScreenH].
  repeat split; auto using f32_of_int_nonneg.
Qed.

Lemma X15_window_size_is_kept_exactly_witness :
  @int_of_float linux_x86_64 (gScreenW (fst (read_matrices demo_xplane demo_datarefs demo_frame))) =
  GetDatai demo_xplane (drScreenWidth demo_datarefs).
Proof.
  apply (@X15_window_size_is_kept_exactly linux_x86_64 demo_xplane demo_datarefs demo_frame);
    vm_compute; split; discriminate.
Defined.

(** ** The configured distance grows with the request *)

Lemma std_max_one_cases (d : float) :
  is_binary32 d = true -> is_nan d = false ->
  nonneg_finite (std_max d f_1_0) = true \/ std_max d f_1_0 = S754_infinity false.
Proof.
  intros Hv Hn.
  destruct (std_max_is_max d f_1_0 Hn eq_refl) as ([E | E] & _ & H1); rewrite E in *.
  - destruct d as [s | [ | ] | | [ | ] m e]; try discriminate.
    + right. reflexivity.
    + left. exact Hv.
  - left. reflexivity.
Qed.

Lemma std_max_one_mono (d1 d2 : float) :
  is_binary32 d1 = true -> is_binary32 d2 = true ->
  is_nan d1 = false -> is_nan d2 = false ->
  f32_le d1 d2 = true ->
  f32_le (std_max d1 f_1_0) (std_max d2 f_1_0) = true.
Proof.
  intros Hv1 Hv2 Hn1 Hn2 Hle.
  assert (Hge : forall d, is_nan d = false -> f32_lt d f_1_0 = false -> f32_le f_1_0 d = true).
  { intros d Hn Hlt. destruct (f32_le f_1_0 d) eqn:E; [ reflexivity | ].
    apply (f32_le_false_iff f_1_0 d eq_refl Hn) in E. congruence. }
  unfold std_max.
  destruct (f32_lt d1 f_1_0) eqn:L1, (f32_lt d2 f_1_0) eqn:L2.
  - reflexivity.
  - apply Hge; assumption.
  - exfalso.
    pose proof (Hge d1 Hn1 L1) as G1.
    assert (N1 : nonneg_finite d1 = true /\ nonneg_finite d2 = true).
    { destruct d1 as [s1 | [ | ] | | [ | ] m1 e1]; try discriminate;
        destruct d2 as [s2 | [ | ] | | [ | ] m2 e2]; try discriminate;
        split; assumption. }
    destruct N1 as [N1 N2].
    pose proof (f32_le_trans f_1_0 d1 d2 eq_refl N1 N2 G1 Hle) as G2.
    apply (proj2 (f32_le_false_iff f_1_0 d2 eq_refl Hn2)) in L2. congruence.
  - exact Hle.
Qed.

(** [X16] A larger request never gives a smaller label range: for two
    requested distances [d1 <= d2] (binary32, not NaN, infinite
    allowed), the maximum label distance stored by
    [XPMPSetAircraftLabelDist] for [d1] is at most the one stored for
    [d2]; the cut-off flag is stored as given, and nothing else of the
    configuration changes. *)
Theorem X16_stored_distance_grows_with_the_request
  (glob1 glob2 : GlobVars) (d1 d2 : float) (cut1 cut2 : bool) :
  is_binary32 d1 = true -> is_binary32 d2 = true ->
  is_nan d1 = false -> is_nan d2 = false ->
  f32_le d1 d2 = true ->
  f32_le (maxLabelDist (XPMPSetAircraftLabelDist glob1 d1 cut1))
         (maxLabelDist (XPMPSetAircraftLabelDist glob2 d2 cut2)) = true /\
  bLabelCutOffAtVisibility (XPMPSetAircraftLabelDist glob1 d1 cut1) = cut1 /\
  bDrawLabels (XPMPSetAircraftLabelDist glob1 d1 cut1) = bDrawLabels glob1 /\
  eLabelOverride (XPMPSetAircraftLabelDist glob1 d1 cut1) = eLabelOverride glob1 /\
  mapAc (XPMPSetAircraftLabelDist glob1 d1 cut1) = mapAc glob1.
Proof.
  intros Hv1 Hv2 Hn1 Hn2 Hle.
  split; [ | repeat split ].
  cbn [XPMPSetAircraftLabelDist maxLabelDist].
  pose proof (std_max_one_mono d1 d2 Hv1 Hv2 Hn1 Hn2 Hle) as Hm.
  destruct (std_max_one_cases d1 Hv1 Hn1) as [A1 | A1];
    destruct (std_max_one_cases d2 Hv2 Hn2) as [A2 | A2].
  - apply f32_mul_mono_l; try assumption; reflexivity.
  - rewrite A2.
    destruct (SFmul_nonneg_shape (std_max d1 f_1_0) M_per_NM A1 eq_refl)
      as [[s E] | [(p & t & E) | E]];
      unfold f32_mul, prec32, emax32; rewrite E; reflexivity.
  - rewrite A1 in Hm.
    destruct (std_max d2 f_1_0) as [s | [ | ] | | [ | ] m e]; discriminate.
  - rewrite A1, A2. reflexivity.
Qed.

Lemma X16_stored_distance_grows_with_the_request_witness :
  f32_le (maxLabelDist (XPMPSetAircraftLabelDist (demo_glob true SWITCH_CFG_AUTO [])
                          (f32_of_int 3) true))
         (maxLabelDist (XPMPSetAircraftLabelDist (demo_glob false SWITCH_CFG_ON [])
                          (S754_infinity false) false)) = true.
Proof.
  apply (X16_stored_distance_grows_with_the_request
           (demo_glob true SWITCH_CFG_AUTO []) (demo_glob false SWITCH_CFG_ON [])
           (f32_of_int 3) (S754_infinity false) true false); reflexivity.
Defined.
